(** * FoodLog AI: the portion-estimation pipeline

    A shallow embedding of the estimation logic of the repository:

    - [utils/replicate-seg.js]: [runModelVersion] (create, poll, fail on an
      explicit [failed] status) and its inner [findMaskUrl];
    - [public/app.js]: [computeMaskPixelFraction], the pixel loop of
      [overlayMaskOnCanvas] and the click handlers of the segment and
      estimate buttons;
    - [server.js]: [bufferToDataUrl], [getDensityEstimateFromOpenAI] and the
      [/api/segment] and [/api/estimate-portion] handlers;
    - [utils/portion.js]: [estimatePortionFromMaskFraction].

    JavaScript numbers are kept abstract behind the interface [JsNumber], and
    the arithmetic of the program is written once against it.  Two instances
    follow: IEEE 754 binary64 (the kernel's primitive floats), on which the
    program is run on concrete inputs, and the real numbers, the exact
    arithmetic in which the algebraic laws of the estimate are stated. *)

From Stdlib Require Import List String Ascii Bool Arith ZArith NArith QArith Lia.
From Stdlib Require Import Reals Lra.
From Stdlib Require Import Floats.
Import ListNotations.

Set Warnings "-inexact-float".

Close Scope Q_scope.
Close Scope R_scope.
Close Scope Z_scope.

Set Implicit Arguments.

(* ================================================================== *)
(** * Part I. Definitions                                              *)
(* ================================================================== *)

(** ** JavaScript values *)

Module Js.

(** The values [JSON.parse] produces.  An object is the list of its own
    properties in the order [Object.keys] enumerates them; [undefined]
    (a missing property) is the [None] of an [option json]. *)
#[local] Unset Elimination Schemes.
Inductive json (num : Type) : Type :=
| JNull
| JBool (b : bool)
| JNum (x : num)
| JStr (s : string)
| JArr (items : list (json num))
| JObj (props : list (string * json num)).

#[local] Set Elimination Schemes.

Arguments JNull {num}.
Arguments JBool {num} b.
Arguments JStr {num} s.

(** The numbers of the program.  Every operation the source applies to a
    number is a field; [num_of_decimal m k] is the number the literal (or
    [parseFloat] of the text) with digits [m] and [k] fractional digits
    denotes, that is [m / 10^k]. *)
Class JsNumber (num : Type) : Type := {
  num_of_decimal : N -> nat -> num;
  num_mul : num -> num -> num;          (* x * y *)
  num_div : num -> num -> num;          (* x / y *)
  num_sqr : num -> num;                 (* Math.pow(x, 2) *)
  num_PI : num;                         (* Math.PI *)
  num_gtb : num -> num -> bool;         (* x > y *)
  num_leb : num -> num -> bool;         (* x <= y *)
  num_truthy : num -> bool;             (* false on 0, -0 and NaN *)
  num_toFixed : nat -> num -> num       (* Number(x.toFixed(k)) *)
}.

(** ** Strings: [startsWith], [split], [pop], [includes] *)

(** [s.split(sep)] for a one-character separator: never empty. *)
Fixpoint split (sep : ascii) (s : string) : list string :=
  match s with
  | EmptyString => [EmptyString]
  | String c rest =>
      if Ascii.eqb c sep then EmptyString :: split sep rest
      else match split sep rest with
           | [] => [String c EmptyString]
           | piece :: pieces => String c piece :: pieces
           end
  end.

(** [pieces[0]] and [pieces.pop()] on the result of a split. *)
Definition first_piece (pieces : list string) : string := hd EmptyString pieces.
Definition pop (pieces : list string) : string := last pieces EmptyString.

Definition startsWith (s p : string) : bool := String.prefix p s.

Definition includes (xs : list string) (x : string) : bool :=
  existsb (String.eqb x) xs.

(** A [for ... of] loop whose body returns on the first hit. *)
Definition first_hit {A B : Type} (f : A -> option B) : list A -> option B :=
  fix go (l : list A) : option B :=
    match l with
    | [] => None
    | a :: rest => match f a with
                   | Some v => Some v
                   | None => go rest
                   end
    end.

(** [obj[k]] on an object's property list, continued by [f]. *)
Definition with_prop {A B : Type} (f : A -> option B) (k : string)
  : list (string * A) -> option B :=
  fix go (props : list (string * A)) : option B :=
    match props with
    | [] => None
    | (k', v) :: rest => if String.eqb k k' then f v else go rest
    end.

Definition get_prop {A : Type} (k : string) (props : list (string * A)) : option A :=
  with_prop (@Some A) k props.

(** What a call leaves: a value, or the exception it throws. *)
Inductive outcome (E A : Type) : Type :=
| Return (a : A)
| Throw (e : E).

Arguments Return {E A} a.
Arguments Throw {E A} e.

Definition bind {E A B : Type} (m : outcome E A) (k : A -> outcome E B) : outcome E B :=
  match m with
  | Return a => k a
  | Throw e => Throw e
  end.

Section Values.
Context {num : Type} `{JsNumber num}.

(** JavaScript truthiness. *)
Definition truthy (v : json num) : bool :=
  match v with
  | JNull => false
  | JBool b => b
  | JNum x => num_truthy x
  | JStr s => negb (String.eqb s EmptyString)
  | JArr _ => true
  | JObj _ => true
  end.

(** Truthiness of a value that may be [undefined]. *)
Definition truthy_opt (v : option (json num)) : bool :=
  match v with
  | Some v => truthy v
  | None => false
  end.

(** [v.k] for a [v] that is neither [null] nor [undefined], and a [k] that is
    no index, [length] or method name: the keys the program reads are
    [urls], [get], [status] and [output]. *)
Definition prop_of (v : json num) (k : string) : option (json num) :=
  match v with
  | JObj props => get_prop k props
  | _ => None
  end.

End Values.

End Js.

Import Js.

Notation "x <- m ;; k" := (bind m (fun x => k))
  (at level 61, m at next level, right associativity).

(** ** [utils/replicate-seg.js] *)

Module ReplicateSeg.

(** [process.env]: a variable is unset or holds a string. *)
Record environment : Type := {
  REPLICATE_API_TOKEN : option string;
  REPLICATE_MODEL_VERSION : option string
}.

(** [!x] on an environment variable is false exactly on a non-empty string. *)
Definition is_set (x : option string) : bool :=
  match x with
  | Some s => negb (String.eqb s EmptyString)
  | None => false
  end.

(** What the caller of [runModelVersion] can observe it doing. *)
Inductive event : Type :=
| Post                 (* axios.post(url, body, { headers }) *)
| Sleep (ms : nat)     (* await new Promise(r => setTimeout(r, ms)) *)
| Get.                 (* axios.get(predictionUrl, { headers }) *)

Definition poll_interval_ms : nat := 1000.
Definition poll_cap : nat := 60.

Definition image_extensions : list string :=
  ["png"; "jpg"; "jpeg"; "webp"]%string.

Definition priority_keys : list string :=
  ["mask"; "masks"; "segmentation"; "segmented_image"; "overlay"]%string.

(** [out.split('?')[0].split('.').pop()] *)
Definition extension_of (out : string) : string :=
  pop (split "."%char (first_piece (split "?"%char out))).

(** The test of lines 75-78 on a string: a scheme prefix, and then an
    allow-listed extension or the inline-data prefix. *)
Definition is_mask_string (out : string) : bool :=
  (startsWith out "http" || startsWith out "data:")
  && (includes image_extensions (extension_of out) || startsWith out "data:").

Section WithNumbers.
Context {num : Type} `{JsNumber num}.

(** The exceptions of [runModelVersion]. *)
Inductive error : Type :=
| MissingToken                          (* 'Missing REPLICATE_API_TOKEN in environment' *)
| MissingModelVersion                   (* 'Missing REPLICATE_MODEL_VERSION in environment' *)
| RequestFailed                         (* axios rejects *)
| TypeError                             (* a property read on null *)
| PredictionFailed (prediction : json num).
                                        (* 'Replicate prediction failed: ' + JSON.stringify(prediction) *)

(** The segmentation service as the invoker meets it: the answer
    ([resp.data]) to the creation request for a model version and an image,
    and the answer ([poll.data]) to the [n]-th poll, counted from 0.
    [None] is a rejected request. *)
Record service : Type := {
  create : string -> json num -> option (json num);
  poll : nat -> option (json num)
}.

Record segResult : Type := {
  prediction : json num;
  maskUrl : option string
}.

(** [findMaskUrl], lines 73-101.  The three [if]s run in sequence; an array
    also passes [typeof out === 'object'], where none of the priority keys is
    a property of it and [Object.keys] lists its indices, so its items are
    visited a second time.  A result is [null] or an accepted string, so the
    test [if (v)] is the test for [Some]. *)
Fixpoint findMaskUrl (out : json num) : option string :=
  if negb (truthy out) then None
  else
    match
      match out with
      | JStr s => if is_mask_string s then Some s else None
      | _ => None
      end
    with
    | Some v => Some v
    | None =>
        match
          match out with
          | JArr items => first_hit findMaskUrl items
          | _ => None
          end
        with
        | Some v => Some v
        | None =>
            match out with
            | JArr items => first_hit findMaskUrl items
            | JObj props =>
                match
                  first_hit
                    (fun k =>
                       with_prop
                         (fun v => if truthy v then findMaskUrl v else None)
                         k props)
                    priority_keys
                with
                | Some v => Some v
                | None => first_hit (fun kv => findMaskUrl (snd kv)) props
                end
            | _ => None
            end
        end
    end.

(** [findMaskUrl(prediction.output)], where the property may be missing. *)
Definition findMaskUrl_opt (out : option (json num)) : option string :=
  match out with
  | Some out => findMaskUrl out
  | None => None
  end.

(** [prediction.status]: reading a property of [null] throws. *)
Definition status_of (prediction : json num) : outcome error (option (json num)) :=
  match prediction with
  | JNull => Throw TypeError
  | _ => Return (prop_of prediction "status")
  end.

(** [status === s] *)
Definition status_is (status : option (json num)) (s : string) : bool :=
  match status with
  | Some (JStr x) => String.eqb x s
  | _ => false
  end.

Definition pending (status : option (json num)) : bool :=
  status_is status "starting" || status_is status "processing".

(** [resp.data && resp.data.urls && resp.data.urls.get]: the first falsy
    operand, or the last one. *)
Definition predictionUrl (data : json num) : option (json num) :=
  if truthy data then
    match prop_of data "urls" with
    | Some urls => if truthy urls then prop_of urls "get" else Some urls
    | None => None
    end
  else Some data.

(** The poll loop, lines 50-56.  [tries] counts up from 0 and [remaining]
    is [poll_cap - tries], so that the guard [tries < 60] is
    [remaining <> 0]; the status is read before the guard, as [&&] does.
    The events of the iterations run are returned beside the outcome. *)
Fixpoint poll_loop (svc : service) (remaining tries : nat) (prediction : json num)
  : list event * outcome error (json num) :=
  match status_of prediction with
  | Throw e => ([], Throw e)
  | Return status =>
      if pending status then
        match remaining with
        | O => ([], Return prediction)
        | S remaining' =>
            match poll svc tries with
            | None => ([Sleep poll_interval_ms; Get], Throw RequestFailed)
            | Some data =>
                let (events, r) := poll_loop svc remaining' (S tries) data in
                (Sleep poll_interval_ms :: Get :: events, r)
            end
        end
      else ([], Return prediction)
  end.

(** Lines 62-109: the [failed] check, the mask search and the result. *)
Definition finish (prediction : json num) : outcome error segResult :=
  status <- status_of prediction ;;
  if status_is status "failed" then Throw (PredictionFailed prediction)
  else
    Return {| prediction := prediction;
              maskUrl := findMaskUrl_opt (prop_of prediction "output") |}.

(** [runModelVersion(dataUrl)], with the events it performs. *)
Definition runModelVersion (env : environment) (svc : service) (dataUrl : json num)
  : list event * outcome error segResult :=
  if negb (is_set (REPLICATE_API_TOKEN env)) then ([], Throw MissingToken)
  else
    match REPLICATE_MODEL_VERSION env with
    | None => ([], Throw MissingModelVersion)
    | Some version =>
        if String.eqb version EmptyString then ([], Throw MissingModelVersion)
        else
          match create svc version dataUrl with
          | None => ([Post], Throw RequestFailed)
          | Some data =>
              let (events, r) :=
                if truthy_opt (predictionUrl data)
                then poll_loop svc poll_cap 0 data
                else ([], Return data) in
              (Post :: events, prediction <- r ;; finish prediction)
          end
    end.

End WithNumbers.

Arguments error num : clear implicits.
Arguments service num : clear implicits.
Arguments segResult num : clear implicits.

End ReplicateSeg.

(** ** [public/app.js] *)

Module App.

Local Open Scope Z_scope.

(** The quotient of two counts: [NaN] for 0/0 is [None], and otherwise the
    exact ratio (which the double returned rounds; 0 and 1 are exact). *)
Definition divide (maskPixels total : Z) : option Q :=
  if total =? 0 then None else Some (Qmake maskPixels (Z.to_pos total)).

(** The loop of lines 87-98 over the bytes [d] of the image data, four to a
    pixel.  Image data always holds whole pixels; on any other array the
    last step would read [undefined], where every comparison is false. *)
Fixpoint count_pixels (d : list Z) (total maskPixels : Z) : Z * Z :=
  match d with
  | [] => (total, maskPixels)
  | r :: d1 =>
      match d1 with
      | g :: b :: alpha :: rest =>
          count_pixels rest (total + 1)
            (if alpha >? 10 then maskPixels + 1
             else if r + g + b >? 10 then maskPixels + 1
             else maskPixels)
      | [g; b] =>
          (total + 1, if r + g + b >? 10 then maskPixels + 1 else maskPixels)
      | _ => (total + 1, maskPixels)
      end
  end.

(** What a promise settles to. *)
Inductive promise (A : Type) : Type :=
| Resolved (a : A)
| Rejected.

Arguments Rejected {A}.

(** [computeMaskPixelFraction(maskUrl)]: [image] is the image data read back
    from the offscreen canvas once the mask is drawn, or [None] when the mask
    fails to load. *)
Definition computeMaskPixelFraction (image : option (list Z)) : promise (option Q) :=
  match image with
  | None => Rejected
  | Some d =>
      let (total, maskPixels) := count_pixels d 0 0 in
      Resolved (divide maskPixels total)
  end.

End App.

(** ** [utils/portion.js] *)

Module Portion.

Section WithNumbers.
Context {num : Type} `{JsNumber num}.

(** The options object: a property is missing or a number. *)
Record options : Type := {
  plateDiameterCm : option num;
  heightCm : option num
}.

(** [opts = {}] *)
Definition no_options : options :=
  {| plateDiameterCm := None; heightCm := None |}.

(** [x || dflt] on an optional number. *)
Definition or_default (x : option num) (dflt : num) : num :=
  match x with
  | Some x => if num_truthy x then x else dflt
  | None => dflt
  end.

Record estimate : Type := {
  plateAreaCm2 : num;
  estimatedVolumeMl : num;
  rawGramsForDensity : num -> num
}.

Definition estimatePortionFromMaskFraction (pixelFraction : num) (opts : options)
  : estimate :=
  let defaultPlateDiameterCm := or_default (plateDiameterCm opts) (num_of_decimal 25 0) in
  let defaultHeightCm := or_default (heightCm opts) (num_of_decimal 25 1) in
  let plateAreaCm2 :=
    num_mul num_PI (num_sqr (num_div defaultPlateDiameterCm (num_of_decimal 20 1))) in
  let estimatedVolumeMl := num_mul (num_mul pixelFraction plateAreaCm2) defaultHeightCm in
  {| plateAreaCm2 := plateAreaCm2;
     estimatedVolumeMl := estimatedVolumeMl;
     rawGramsForDensity := fun density_g_per_ml => num_mul estimatedVolumeMl density_g_per_ml |}.

End WithNumbers.

Arguments options num : clear implicits.
Arguments estimate num : clear implicits.

End Portion.

(** ** [server.js] *)

Module Server.

(** *** The density reply: [out.match(/[\d]+(?:\.\d+)?/)] and [parseFloat] *)

(** [\d] *)
Definition is_digit (c : ascii) : bool :=
  (48 <=? N_of_ascii c)%N && (N_of_ascii c <=? 57)%N.

(** [\d*] at the head of a text: the digits, and what follows them. *)
Fixpoint take_digits (s : string) : string * string :=
  match s with
  | EmptyString => (EmptyString, EmptyString)
  | String c rest =>
      if is_digit c then
        let (ds, after) := take_digits rest in (String c ds, after)
      else (EmptyString, s)
  end.

(** [(?:\.\d+)?] after the integer digits: greedy, so taken when it can be. *)
Definition take_fraction (after : string) : string :=
  match after with
  | String c after' =>
      if Ascii.eqb c "." then
        match fst (take_digits after') with
        | EmptyString => EmptyString
        | frac => String "." frac
        end
      else EmptyString
  | EmptyString => EmptyString
  end.

(** [match[0]]: the match starts at the first position where one can. *)
Fixpoint match_number (text : string) : option string :=
  match text with
  | EmptyString => None
  | String c rest =>
      if is_digit c then
        let (int, after) := take_digits text in
        Some (int ++ take_fraction after)%string
      else match_number rest
  end.

(** The number a string of digits writes. *)
Fixpoint digits_value (acc : N) (ds : string) : N :=
  match ds with
  | EmptyString => acc
  | String c rest => digits_value (10 * acc + (N_of_ascii c - 48))%N rest
  end.

Section WithNumbers.
Context {num : Type} `{JsNumber num}.

(** [parseFloat] on the texts the pattern matches, [digits] or
    [digits.digits]. *)
Definition parseFloat (s : string) : num :=
  let (int, after) := take_digits s in
  match after with
  | String c after' =>
      if Ascii.eqb c "." then
        let frac := fst (take_digits after') in
        num_of_decimal (digits_value 0 (int ++ frac)) (String.length frac)
      else num_of_decimal (digits_value 0 int) 0
  | EmptyString => num_of_decimal (digits_value 0 int) 0
  end.

(** Lines 262-263 of [getDensityEstimateFromOpenAI]. *)
Definition parse_density (out : string) : num :=
  match match_number out with
  | Some m => parseFloat m
  | None => num_of_decimal 10 1
  end.

(** The chat completion behind [getDensityEstimateFromOpenAI(foodName)]:
    [Some out] is the text [(... .message.content) || ''] of the reply, and
    [None] a call that throws. *)
Definition completion : Type := json num -> option string.

Definition getDensityEstimateFromOpenAI (openai : completion) (foodName : json num)
  : outcome unit num :=
  match openai foodName with
  | None => Throw tt
  | Some out => Return (parse_density out)
  end.

(** *** The arithmetic of [/api/estimate-portion], lines 338-348 *)

Definition defaultPlateDiameterCm : num := num_of_decimal 25 0.
Definition defaultHeightCm : num := num_of_decimal 25 1.

Definition plateAreaCm2 : num :=
  num_mul num_PI (num_sqr (num_div defaultPlateDiameterCm (num_of_decimal 20 1))).

Definition estimatedVolumeMl (fraction : num) : num :=
  num_mul (num_mul fraction plateAreaCm2) defaultHeightCm.

Definition rawPortionGrams (fraction density_g_per_ml : num) : num :=
  num_mul (estimatedVolumeMl fraction) density_g_per_ml.

(** *** Requests and responses *)

(** [req.body] of [/api/estimate-portion], destructured. *)
Record estimate_request : Type := {
  imageBase64 : option (json num);
  maskUrl : option (json num);
  foodName : option (json num);
  pixelFraction : option (json num)
}.

Record plate_assumptions : Type := {
  plateDiameterCm : num;
  assumedHeightCm : num;
  plateAreaCm2_shown : num
}.

Record portion_report : Type := {
  report_foodName : json num;
  report_pixelFraction : num;
  plateAssumptions : plate_assumptions;
  estimatedVolumeMl_shown : num;
  density_g_per_ml : num;
  portionEstimate_g : num
}.

Inductive failure : Type :=
| Message (text : string)                       (* { error: text } *)
| SegmentationError (e : ReplicateSeg.error num)
| UpstreamError.                                (* { error: String(err) } *)

Inductive payload : Type :=
| Failed (f : failure)
| Segmented (segResult : ReplicateSeg.segResult num)
| Estimated (report : portion_report).

(** [res.status(code).json(body)]; [res.json(body)] has code 200. *)
Record response : Type := {
  code : nat;
  body : payload
}.

Definition missing_fields : string :=
  "Missing fields (imageBase64, maskUrl, foodName)".
Definition missing_pixelFraction : string :=
  "Missing pixelFraction. Frontend should compute mask pixel fraction and send it.".

(** Line 327: the fraction sent, when it is a number in (0, 1]. *)
Definition checked_fraction (pixelFraction : option (json num)) : option num :=
  match pixelFraction with
  | Some (JNum x) =>
      if num_gtb x (num_of_decimal 0 0) && num_leb x (num_of_decimal 1 0)
      then Some x else None
  | _ => None
  end.

(** The handler of [POST /api/estimate-portion]. *)
Definition estimate_portion (openai : completion) (req : estimate_request) : response :=
  match imageBase64 req, maskUrl req, foodName req with
  | Some image, Some mask, Some name =>
      if negb (truthy image) || negb (truthy mask) || negb (truthy name)
      then {| code := 400; body := Failed (Message missing_fields) |}
      else
        match checked_fraction (pixelFraction req) with
        | None => {| code := 400; body := Failed (Message missing_pixelFraction) |}
        | Some fraction =>
            if negb (num_truthy fraction)
            then {| code := 400; body := Failed (Message missing_pixelFraction) |}
            else
              match getDensityEstimateFromOpenAI openai name with
              | Throw _ => {| code := 500; body := Failed UpstreamError |}
              | Return density =>
                  let rawPortionGrams := rawPortionGrams fraction density in
                  {| code := 200;
                     body := Estimated
                       {| report_foodName := name;
                          report_pixelFraction := fraction;
                          plateAssumptions :=
                            {| plateDiameterCm := defaultPlateDiameterCm;
                               assumedHeightCm := defaultHeightCm;
                               plateAreaCm2_shown := num_toFixed 2 plateAreaCm2 |};
                          estimatedVolumeMl_shown :=
                            num_toFixed 2 (estimatedVolumeMl fraction);
                          density_g_per_ml := num_toFixed 2 density;
                          portionEstimate_g := num_toFixed 1 rawPortionGrams |} |}
              end
        end
  | _, _, _ => {| code := 400; body := Failed (Message missing_fields) |}
  end.

(** The handler of [POST /api/segment]: [dataUrl] is the data URL of the
    uploaded file, or else [req.body.imageBase64]. *)
Definition segment (env : ReplicateSeg.environment) (svc : ReplicateSeg.service num)
  (file : option string) (imageBase64 : option (json num)) : response :=
  let run dataUrl :=
    match snd (ReplicateSeg.runModelVersion env svc dataUrl) with
    | Return segResult => {| code := 200; body := Segmented segResult |}
    | Throw e => {| code := 500; body := Failed (SegmentationError e) |}
    end in
  match file with
  | Some dataUrl => run (JStr dataUrl)
  | None =>
      match imageBase64 with
      | Some image =>
          if truthy image then run image
          else {| code := 400; body := Failed (Message "Missing image") |}
      | None => {| code := 400; body := Failed (Message "Missing image") |}
      end
  end.

End WithNumbers.

Arguments estimate_request num : clear implicits.
Arguments portion_report num : clear implicits.
Arguments plate_assumptions num : clear implicits.
Arguments response num : clear implicits.
Arguments payload num : clear implicits.
Arguments failure num : clear implicits.
Arguments completion num : clear implicits.

End Server.

(** ** The two number systems *)

(** *** IEEE 754 binary64 *)

Module Binary64.

Local Open Scope Z_scope.

Definition float_of_Z (n : Z) : float := PrimFloat.of_uint63 (Uint63.of_Z n).

(** The double nearest to [n / d], ties to even, for [n >= 0] and [d > 0]:
    the quotient is scaled by a power of two to an integer of at most 53
    bits, the power never below that of the smallest subnormal, rounded once,
    and scaled back, which is exact (or overflows to infinity). *)
Definition nearest_ratio (n d : Z) : float :=
  if n =? 0 then PrimFloat.zero
  else
    let e0 := Z.log2 n - Z.log2 d - 53 in
    let scaled (e : Z) := if 0 <=? e then (n, d * 2 ^ e) else (n * 2 ^ (- e), d) in
    let e1 := if 2 ^ 53 <=? fst (scaled e0) / snd (scaled e0) then e0 + 1 else e0 in
    let e := Z.max e1 (-1074) in
    let '(a, b) := scaled e in
    let q := a / b in
    let r := a mod b in
    let m := if 2 * r <? b then q
             else if b <? 2 * r then q + 1
             else if Z.even q then q else q + 1 in
    Z.ldexp (float_of_Z m) e.

(** [Number(x.toFixed(k))], for [k] up to 100.  [toFixed] writes the integer
    [n] for which [n / 10^k] is nearest to the exact value of [x], the larger
    one of two, behind the sign of [x]; from 1e21 on it writes [x] as
    [String] does.  [Number] reads the digits back to the nearest double. *)
Definition toFixed (k : nat) (x : float) : float :=
  match Prim2SF x with
  | S754_finite s m e =>
      let whole := if 0 <=? e then Zpos m * 2 ^ e else Zpos m / 2 ^ (- e) in
      if 10 ^ 21 <=? whole then x
      else
        let p := Zpos m * 10 ^ Z.of_nat k in
        let n := if 0 <=? e then p * 2 ^ e
                 else (2 * p + 2 ^ (- e)) / 2 ^ (1 - e) in
        let y := nearest_ratio n (10 ^ Z.of_nat k) in
        if s then PrimFloat.opp y else y
  | S754_zero _ => PrimFloat.zero
  | _ => x
  end.

(** [Math.PI] *)
Definition PI : float := 0x1.921fb54442d18p+1%float.

(** The operators are those of IEEE 754.  [Math.pow(x, 2)] is taken to be
    the rounded square of [x], which it is wherever the square is a double,
    as for the half diameter 12.5; a number is falsy when it is a zero or
    [NaN]. *)

#[global] Instance number : JsNumber float := {|
  num_of_decimal m k := nearest_ratio (Z.of_N m) (10 ^ Z.of_nat k);
  num_mul := PrimFloat.mul;
  num_div := PrimFloat.div;
  num_sqr x := PrimFloat.mul x x;
  num_PI := PI;
  num_gtb x y := PrimFloat.ltb y x;
  num_leb := PrimFloat.leb;
  num_truthy x := negb (PrimFloat.is_zero x || PrimFloat.is_nan x);
  num_toFixed := toFixed
|}.

End Binary64.

(** *** Exact arithmetic on the reals *)

Module Exact.

Local Open Scope R_scope.

(** [toFixed] rounds the magnitude to the nearest multiple of [10^-k], half
    up, and keeps a value from 1e21 on as it is. *)
Definition toFixed (k : nat) (x : R) : R :=
  if Rle_dec (10 ^ 21) (Rabs x) then x
  else if Rle_dec 0 x
       then IZR (Int_part (x * 10 ^ k + / 2)) / 10 ^ k
       else - (IZR (Int_part (- x * 10 ^ k + / 2)) / 10 ^ k).

#[global] Instance number : JsNumber R := {|
  num_of_decimal m k := IZR (Z.of_N m) / 10 ^ k;
  num_mul := Rmult;
  num_div := Rdiv;
  num_sqr x := x ^ 2;
  num_PI := PI;
  num_gtb x y := if Rgt_dec x y then true else false;
  num_leb x y := if Rle_dec x y then true else false;
  num_truthy x := if Req_dec_T x 0 then false else true;
  num_toFixed := toFixed
|}.

End Exact.

(** ** Notions of the specification *)

Section SpecNotions.
Context {num : Type} `{JsNumber num}.

(** Every string value of a structure, at any depth. *)
Fixpoint strings_of (v : json num) : list string :=
  match v with
  | JStr s => [s]
  | JArr items => flat_map strings_of items
  | JObj props => flat_map (fun kv => strings_of (snd kv)) props
  | _ => []
  end.

(** The values under the priority keys an object has, in priority order. *)
Definition priority_values (props : list (string * json num)) : list (json num) :=
  flat_map
    (fun k => match get_prop k props with
              | Some v => [v]
              | None => []
              end)
    ReplicateSeg.priority_keys.

(** The values under the remaining keys, in the object's own order. *)
Definition remaining_values (props : list (string * json num)) : list (json num) :=
  map snd
    (filter (fun kv => negb (includes ReplicateSeg.priority_keys (fst kv))) props).

(** [pieces.join(sep)] *)
Fixpoint join (sep : ascii) (pieces : list string) : string :=
  match pieces with
  | [] => EmptyString
  | [piece] => piece
  | piece :: rest => (piece ++ String sep (join sep rest))%string
  end.

Definition occurs (c : ascii) (s : string) : Prop := In c (list_ascii_of_string s).

(** The rule for a mask reference, in the words of the specification: a
    recognized scheme prefix, and then either the inline-data prefix or an
    allow-listed extension at the end of the text with its query stripped. *)
Definition has_image_extension (s : string) : Prop :=
  exists path stem ext,
    (s = path \/ exists query, s = (path ++ String "?"%char query)%string)
    /\ ~ occurs "?"%char path
    /\ path = (stem ++ String "."%char ext)%string
    /\ ~ occurs "."%char ext
    /\ In ext ReplicateSeg.image_extensions.

Definition mask_reference (s : string) : Prop :=
  (startsWith s "http" = true \/ startsWith s "data:" = true)
  /\ (startsWith s "data:" = true \/ has_image_extension s).

(** [findMaskUrl] on a property that may be missing. *)
Definition strings_of_opt (v : option (json num)) : list string :=
  match v with
  | Some v => strings_of v
  | None => []
  end.

(** The events of [k] rounds of the poll loop. *)
Definition poll_events (k : nat) : list ReplicateSeg.event :=
  List.concat (repeat [ReplicateSeg.Sleep ReplicateSeg.poll_interval_ms; ReplicateSeg.Get] k).

(** A prediction whose status is in the pending set. *)
Definition is_pending (prediction : json num) : bool :=
  match ReplicateSeg.status_of prediction with
  | Return status => ReplicateSeg.pending status
  | Throw _ => false
  end.


(** A pixel is read as food. *)
Definition is_food (px : Z * Z * Z * Z) : bool :=
  let '(r, g, b, alpha) := px in
  ((alpha >? 10) || ((alpha <=? 10) && (r + g + b >? 10)))%Z.

(** The number of pixels read as food. *)
Definition food_count (pixels : list (Z * Z * Z * Z)) : Z :=
  Z.of_nat (List.length (filter is_food pixels)).

(** The bytes of a list of pixels, as image data lays them out. *)
Fixpoint image_data (pixels : list (Z * Z * Z * Z)) : list Z :=
  match pixels with
  | [] => []
  | (r, g, b, alpha) :: rest => r :: g :: b :: alpha :: image_data rest
  end.

Definition no_digit (s : string) : Prop :=
  Forall (fun c => Server.is_digit c = false) (list_ascii_of_string s).

(** A text that does not begin with a digit. *)
Definition not_digit_head (s : string) : Prop :=
  match s with
  | String c _ => Server.is_digit c = false
  | EmptyString => True
  end.

(** The texts the pattern [[\d]+(?:\.\d+)?] matches in full: digits, or
    digits, a point and digits. *)
Definition all_digits (s : string) : Prop :=
  s <> EmptyString /\ Forall (fun c => Server.is_digit c = true) (list_ascii_of_string s).

Definition numeric_literal (s : string) : Prop :=
  all_digits s
  \/ exists int frac, s = (int ++ String "."%char frac)%string
                      /\ all_digits int /\ all_digits frac.

(** The digit a character writes, if it writes one: its place among the
    ten digits. *)
Definition digit_of (c : ascii) : option N :=
  option_map N.of_nat (String.index 0 (String c EmptyString) "0123456789").

(** The number a string of digits writes: every digit counts for the power
    of ten of its place, the last one for units. *)
Fixpoint decimal_number (ds : string) : N :=
  match ds with
  | EmptyString => 0
  | String c rest =>
      match digit_of c with
      | Some d => d * 10 ^ N.of_nat (String.length rest)
      | None => 0
      end + decimal_number rest
  end%N.

End SpecNotions.

(** ** Concrete inputs *)

Module Examples.

Import ReplicateSeg.

(** [{ segmentation: { mask: a }, overlay: b }] *)
Definition nested_mask {num : Type} (a : string) (b : json num) : json num :=
  JObj [("segmentation"%string, JObj [("mask"%string, JStr a)]);
        ("overlay"%string, b)].

(** The same object with its two properties in the other order. *)
Definition nested_mask_last {num : Type} (a : string) (b : json num) : json num :=
  JObj [("overlay"%string, b);
        ("segmentation"%string, JObj [("mask"%string, JStr a)])].

Definition env : environment :=
  {| REPLICATE_API_TOKEN := Some "r8_token"%string;
     REPLICATE_MODEL_VERSION := Some "yolov8-seg:1"%string |}.

Definition poll_location : json float :=
  JObj [("get"%string, JStr "https://api.replicate.com/v1/predictions/p1")].

Definition starting : json float :=
  JObj [("id"%string, JStr "p1"); ("status"%string, JStr "starting");
        ("urls"%string, poll_location)].

Definition processing : json float :=
  JObj [("id"%string, JStr "p1"); ("status"%string, JStr "processing");
        ("output"%string, JNull); ("urls"%string, poll_location)].


(** A service that answers at once, with an output that holds no mask. *)
Definition no_mask_output : json float :=
  JObj [("boxes"%string, JArr [JNum 12%float; JNum 40%float]);
        ("label"%string, JStr "rice");
        ("preview"%string, JStr "https://replicate.delivery/preview.svg")].

Definition succeeded_without_mask : json float :=
  JObj [("id"%string, JStr "p2"); ("status"%string, JStr "succeeded");
        ("output"%string, no_mask_output)].

Definition immediate : service float :=
  {| create := fun _ _ => Some succeeded_without_mask;
     poll := fun _ => None |}.

Definition photo : string := "data:image/jpeg;base64,/9j/4AAQSkZJRg".

(** [{ masks: [..], overlay: .., id: .., segmentation: .. }] *)
Definition several_keys : list (string * json float) :=
  [("id"%string, JStr "https://replicate.delivery/p3.png");
   ("overlay"%string, JStr "https://replicate.delivery/overlay.png");
   ("masks"%string, JArr [JStr "none"; JStr "https://replicate.delivery/m1.webp";
                          JStr "https://replicate.delivery/m2.webp"])].

(** The request of the end-to-end scenario, and a model that answers 0.9. *)
Definition rice_request : Server.estimate_request float :=
  {| Server.imageBase64 := Some (JStr photo);
     Server.maskUrl := Some (JStr "https://replicate.delivery/mask.png");
     Server.foodName := Some (JStr "rice");
     Server.pixelFraction := Some (JNum 0.3%float) |}.

Definition answers_0_9 : Server.completion float := fun _ => Some "0.9"%string.

(** Requests whose pixel fraction is out of range, not a number, or missing. *)
Definition with_fraction (pixelFraction : option (json float))
  : Server.estimate_request float :=
  {| Server.imageBase64 := Some (JStr photo);
     Server.maskUrl := Some (JStr "https://replicate.delivery/mask.png");
     Server.foodName := Some (JStr "rice");
     Server.pixelFraction := pixelFraction |}.

End Examples.

(** ** The rest of [public/app.js] and of [server.js] *)

Module Overlay.

Local Open Scope Z_scope.

(** The byte that [data[i] = Math.round(x)] leaves in the clamped array of
    an image: [Math.round] is the integer nearest to the exact value of [x],
    the larger one of two, and the store clamps to 0..255 ([NaN] to 0). *)
Definition round_to_byte (x : float) : Z :=
  match Prim2SF x with
  | S754_finite s m e =>
      let v := if s then Zneg m else Zpos m in
      let n := if 0 <=? e then v * 2 ^ e
               else (2 * v + 2 ^ (- e)) / 2 ^ (1 - e) in
      Z.max 0 (Z.min 255 n)
  | S754_infinity false => 255
  | _ => 0
  end.

(** [Math.round(data[i] * 0.2)] on a byte of the image. *)
Definition darken (channel : Z) : Z :=
  round_to_byte (PrimFloat.mul (Binary64.float_of_Z channel) 0.2%float).

(** The loop of lines 54-66 of [overlayMaskOnCanvas], from the image data
    read back once the mask is drawn to the data put back.  On a last,
    partial pixel [data[i+3]] is [undefined] and nothing is written. *)
Fixpoint overlayMaskOnCanvas (data : list Z) : list Z :=
  match data with
  | r :: g :: b :: alpha :: rest =>
      if alpha >? 10
      then 255 :: darken g :: darken b :: 160 :: overlayMaskOnCanvas rest
      else r :: g :: b :: alpha :: overlayMaskOnCanvas rest
  | _ => data
  end.

End Overlay.

Module Routes.

(** The file of a multipart upload: its bytes in base64 ([buffer.toString
    ('base64')]) and its media type. *)
Record upload : Type := {
  base64 : string;
  mimetype : option string
}.

(** [bufferToDataUrl(req.file.buffer, req.file.mimetype || 'image/jpeg')] *)
Definition bufferToDataUrl (file : upload) : string :=
  let mime := match mimetype file with
              | Some m => if String.eqb m EmptyString then "image/jpeg"%string else m
              | None => "image/jpeg"%string
              end in
  ("data:" ++ mime ++ ";base64," ++ base64 file)%string.

Section WithNumbers.
Context {num : Type} `{JsNumber num}.

(** [POST /api/segment] on a request with an uploaded file or a JSON body. *)
Definition api_segment (env : ReplicateSeg.environment) (svc : ReplicateSeg.service num)
  (file : option upload) (imageBase64 : option (json num)) : Server.response num :=
  Server.segment env svc (option_map bufferToDataUrl file) imageBase64.

End WithNumbers.

End Routes.

Module Page.

(** The module variables of [app.js]; [null] is [None]. *)
Record session : Type := {
  currentImageDataUrl : option string;
  currentMaskUrl : option string;
  currentFoodName : option string
}.

Definition initial : session :=
  {| currentImageDataUrl := None; currentMaskUrl := None; currentFoodName := None |}.

(** [x || dflt] on a string that may be [null]. *)
Definition or_text (x : option string) (dflt : string) : string :=
  match x with
  | Some s => if String.eqb s EmptyString then dflt else s
  | None => dflt
  end.

Section WithNumbers.
Context {num : Type} `{JsNumber num}.

(** What a click leaves on the page. *)
Inductive shown : Type :=
| Alert (text : string)                       (* alert(text) *)
| ErrorStatus (f : Server.failure num)        (* 'Error: ' + data.error *)
| NoMaskStatus                                (* 'No mask returned by model. ...' *)
| SegmentationDone                            (* 'Segmentation done. ...' *)
| FailedStatus                                (* the [catch] of the handler *)
| ResultError (f : Server.failure num)        (* 'Error: ' + result.error *)
| Result (body : Server.payload num).         (* JSON.stringify(result, null, 2) *)

(** The fraction as the server reads it from the JSON body: the quotient of
    the two counts, and [null] for [NaN], which is how [JSON.stringify]
    writes it. *)
Definition fraction_json (fraction : option Q) : json num :=
  match fraction with
  | Some q =>
      JNum (num_div (num_of_decimal (Z.to_N (Qnum q)) 0)
                    (num_of_decimal (Npos (Qden q)) 0))
  | None => JNull
  end.

(** The click on [segmentBtn], lines 133-168: [fetch] is the answer of
    [/api/segment] to the file ([None] when the request fails), [read] the
    result of [readFileAsDataUrl] ([None] when it fails). *)
Definition segmentBtn_click
  (fetch : Routes.upload -> option (Server.response num))
  (read : option string) (file : option Routes.upload) (s : session)
  : session * shown :=
  match file with
  | None => (s, Alert "Choose an image first")
  | Some f =>
      match fetch f with
      | None => (s, FailedStatus)
      | Some r =>
          match Server.body r with
          | Server.Failed e => (s, ErrorStatus e)
          | Server.Segmented seg =>
              match ReplicateSeg.maskUrl seg with
              | None => (s, NoMaskStatus)
              | Some mask =>
                  if String.eqb mask EmptyString then (s, NoMaskStatus)
                  else
                    match read with
                    | None =>
                        ({| currentImageDataUrl := currentImageDataUrl s;
                            currentMaskUrl := Some mask;
                            currentFoodName := currentFoodName s |},
                         FailedStatus)
                    | Some url =>
                        ({| currentImageDataUrl := Some url;
                            currentMaskUrl := Some mask;
                            currentFoodName := currentFoodName s |},
                         SegmentationDone)
                    end
              end
          | Server.Estimated _ => (s, NoMaskStatus)
          end
      end
  end.

(** The click on [estimateBtn], lines 170-199: [mask] is the image data of
    the mask at [currentMaskUrl] ([None] when it fails to load), [fetch] the
    answer of [/api/estimate-portion] to the payload. *)
Definition estimateBtn_click
  (fetch : Server.estimate_request num -> option (Server.response num))
  (mask : option (list Z)) (s : session) : shown :=
  match currentImageDataUrl s, currentMaskUrl s with
  | Some image, Some maskUrl =>
      if String.eqb image EmptyString || String.eqb maskUrl EmptyString
      then Alert "Run Identify and Segment first."
      else
        match App.computeMaskPixelFraction mask with
        | App.Rejected => FailedStatus
        | App.Resolved fraction =>
            let payload :=
              {| Server.imageBase64 := Some (JStr image);
                 Server.maskUrl := Some (JStr maskUrl);
                 Server.foodName := Some (JStr (or_text (currentFoodName s) "unknown"));
                 Server.pixelFraction := Some (fraction_json fraction) |} in
            match fetch payload with
            | None => FailedStatus
            | Some r =>
                match Server.body r with
                | Server.Failed e => ResultError e
                | body => Result body
                end
            end
        end
  | _, _ => Alert "Run Identify and Segment first."
  end.

End WithNumbers.

Arguments shown num : clear implicits.

End Page.

Module MoreExamples.

Import ReplicateSeg.

Definition succeeded_with_mask : json float :=
  JObj [("id"%string, JStr "p1"); ("status"%string, JStr "succeeded");
        ("output"%string,
         JObj [("label"%string, JStr "rice");
               ("masks"%string,
                JArr [JStr "https://replicate.delivery/m1.png?sig=a.b"])])].

(** Two polls answer [processing], the third [succeeded]. *)
Definition ready_at_third_poll : service float :=
  {| create := fun _ _ => Some Examples.starting;
     poll := fun n => if Nat.ltb n 2 then Some Examples.processing
                      else Some succeeded_with_mask |}.

(** The second poll is rejected. *)
Definition second_poll_rejected : service float :=
  {| create := fun _ _ => Some Examples.starting;
     poll := fun n => if Nat.ltb n 1 then Some Examples.processing else None |}.

Definition jpeg : Routes.upload :=
  {| Routes.base64 := "/9j/4AAQSkZJRg"; Routes.mimetype := Some "image/jpeg"%string |}.

Definition segmented : Page.session :=
  {| Page.currentImageDataUrl := Some Examples.photo;
     Page.currentMaskUrl := Some "https://replicate.delivery/m1.png?sig=a.b"%string;
     Page.currentFoodName := None |}.

End MoreExamples.

(** ** Further notions *)

Section MoreNotions.
Context {num : Type} `{JsNumber num}.

(** The session holds no mask, or one that is a mask reference. *)
Definition mask_kept (s : Page.session) : Prop :=
  match Page.currentMaskUrl s with
  | Some mask => ReplicateSeg.is_mask_string mask = true
  | None => True
  end.

(** A byte of an image. *)
Definition is_byte (v : Z) : Prop := (0 <= v <= 255)%Z.

(** What the overlay makes of one pixel. *)
Definition tinted (px : Z * Z * Z * Z) : Z * Z * Z * Z :=
  let '(r, g, b, alpha) := px in
  if (alpha >? 10)%Z then (255, (2 * g + 5) / 10, (2 * b + 5) / 10, 160)%Z else px.

(** The polls before the [k]-th are answered, each with a pending status. *)
Definition pending_until (svc : ReplicateSeg.service num) (k : nat) : Prop :=
  forall n, n < k ->
    exists data, ReplicateSeg.poll svc n = Some data /\ is_pending data = true.

(** The environment names a token and a model version. *)
Definition configured (env : ReplicateSeg.environment) (version : string) : Prop :=
  ReplicateSeg.is_set (ReplicateSeg.REPLICATE_API_TOKEN env) = true
  /\ ReplicateSeg.REPLICATE_MODEL_VERSION env = Some version
  /\ version <> EmptyString.

(** An outcome that is not one of the two configuration errors. *)
Definition past_configuration {A : Type} (r : outcome (ReplicateSeg.error num) A) : Prop :=
  r <> Throw ReplicateSeg.MissingToken /\ r <> Throw ReplicateSeg.MissingModelVersion.

(** What a run can leave, according to where it ends. *)
Definition checked (r : outcome (ReplicateSeg.error num) (ReplicateSeg.segResult num))
  : Prop :=
  match r with
  | Return seg =>
      (exists status,
          ReplicateSeg.status_of (ReplicateSeg.prediction seg) = Return status
          /\ ReplicateSeg.status_is status "failed" = false)
      /\ ReplicateSeg.maskUrl seg = ReplicateSeg.findMaskUrl_opt (prop_of (ReplicateSeg.prediction seg) "output")
      /\ forall mask,
           ReplicateSeg.maskUrl seg = Some mask ->
           mask_reference mask
           /\ In mask (strings_of_opt (prop_of (ReplicateSeg.prediction seg) "output"))
           /\ mask <> EmptyString
  | Throw (ReplicateSeg.PredictionFailed prediction) =>
      exists status,
        ReplicateSeg.status_of prediction = Return status /\ ReplicateSeg.status_is status "failed" = true
  | Throw _ => True
  end.

(** The request holds its three fields, each truthy. *)
Definition whole_request (req : Server.estimate_request num) : bool :=
  truthy_opt (Server.imageBase64 req) && truthy_opt (Server.maskUrl req)
  && truthy_opt (Server.foodName req).

(** A number that is let through as a pixel fraction: not falsy (0 and NaN
    are), above 0 and at most 1. *)
Definition fraction_let_through (x : num) : bool :=
  num_truthy x && num_gtb x (num_of_decimal 0 0) && num_leb x (num_of_decimal 1 0).

(** The request has no pixel fraction that is let through: the property is
    missing, or no number, or a number that fails the test. *)
Definition no_fraction (req : Server.estimate_request num) : Prop :=
  forall x, Server.pixelFraction req = Some (JNum x) -> fraction_let_through x = false.

(** The answer to a request that passes the checks and whose model call
    returns [out]. *)
Definition expected_report (name : json num) (x : num) (out : string)
  : Server.response num :=
  {| Server.code := 200;
     Server.body := Server.Estimated
       {| Server.report_foodName := name;
          Server.report_pixelFraction := x;
          Server.plateAssumptions :=
            {| Server.plateDiameterCm := num_of_decimal 25 0;
               Server.assumedHeightCm := num_of_decimal 25 1;
               Server.plateAreaCm2_shown := num_toFixed 2 Server.plateAreaCm2 |};
          Server.estimatedVolumeMl_shown :=
            num_toFixed 2 (Server.estimatedVolumeMl x);
          Server.density_g_per_ml := num_toFixed 2 (Server.parse_density out);
          Server.portionEstimate_g :=
            num_toFixed 1 (Server.rawPortionGrams x (Server.parse_density out)) |} |}.

End MoreNotions.

(* ================================================================== *)
(** * Part II. Theorems                                                *)
(* ================================================================== *)

(** ** Induction on values *)

Section JsonInduction.
Variable num : Type.
Variable P : json num -> Prop.
Hypothesis HNull : P JNull.
Hypothesis HBool : forall b, P (JBool b).
Hypothesis HNum : forall x, P (JNum x).
Hypothesis HStr : forall s, P (JStr s).
Hypothesis HArr : forall items, Forall P items -> P (JArr items).
Hypothesis HObj : forall props, Forall (fun kv => P (snd kv)) props -> P (JObj props).

Fixpoint json_ind (v : json num) : P v :=
  match v with
  | JNull => HNull
  | JBool b => HBool b
  | JNum x => HNum x
  | JStr s => HStr s
  | JArr items =>
      HArr ((fix all (l : list (json num)) : Forall P l :=
               match l with
               | [] => Forall_nil P
               | x :: rest => Forall_cons x (json_ind x) (all rest)
               end) items)
  | JObj props =>
      HObj ((fix all (l : list (string * json num))
               : Forall (fun kv => P (snd kv)) l :=
               match l with
               | [] => Forall_nil _
               | kv :: rest => Forall_cons kv (json_ind (snd kv)) (all rest)
               end) props)
  end.

End JsonInduction.

(** ** Loops that return on the first hit *)

Section FirstHit.
Context {A B : Type}.
Implicit Types (f g : A -> option B) (l : list A).

Lemma first_hit_app f l1 l2 :
  first_hit f (l1 ++ l2) =
  match first_hit f l1 with
  | Some v => Some v
  | None => first_hit f l2
  end.
Proof.
  induction l1 as [|a l1 IH]; simpl; [reflexivity|].
  destruct (f a); [reflexivity | exact IH].
Qed.

Lemma first_hit_ext f g l :
  (forall a, In a l -> f a = g a) -> first_hit f l = first_hit g l.
Proof.
  induction l as [|a l IH]; intros E; simpl; [reflexivity|].
  rewrite (E a (or_introl eq_refl)).
  destruct (g a); [reflexivity|].
  apply IH. intros a' Ha'. apply E. right. exact Ha'.
Qed.

Lemma first_hit_none f l :
  first_hit f l = None <-> (forall a, In a l -> f a = None).
Proof.
  induction l as [|a l IH]; simpl.
  - split; [intros _ a [] | reflexivity].
  - destruct (f a) eqn:Fa.
    + split; [discriminate|]. intros E.
      rewrite (E a (or_introl eq_refl)) in Fa. discriminate.
    + rewrite IH. split.
      * intros E a' [<-|Ha']; [exact Fa | apply E, Ha'].
      * intros E a' Ha'. apply E. right. exact Ha'.
Qed.

(** The hit is at the first element that has one. *)
Lemma first_hit_some f l v :
  first_hit f l = Some v <->
  exists before a after,
    l = before ++ a :: after
    /\ (forall a', In a' before -> f a' = None)
    /\ f a = Some v.
Proof.
  split.
  - induction l as [|a l IH]; simpl; [discriminate|].
    destruct (f a) eqn:Fa.
    + intros [= <-]. exists [], a, l. simpl. repeat split; [intros ? []| exact Fa].
    + intros E. destruct (IH E) as (before & a0 & after & -> & Hb & Ha).
      exists (a :: before), a0, after. repeat split; [|exact Ha].
      intros a' [<-|Ha']; [exact Fa | apply Hb, Ha'].
  - intros (before & a & after & -> & Hb & Ha).
    rewrite first_hit_app.
    destruct (first_hit_none f before) as [_ Hn]. rewrite (Hn Hb). simpl.
    rewrite Ha. reflexivity.
Qed.

End FirstHit.

Lemma first_hit_flat_map {A B C : Type} (f : B -> option C) (g : A -> list B) l :
  first_hit f (flat_map g l) = first_hit (fun a => first_hit f (g a)) l.
Proof.
  induction l as [|a l IH]; simpl; [reflexivity|].
  rewrite first_hit_app, IH. reflexivity.
Qed.

Lemma first_hit_map {A B C : Type} (f : B -> option C) (g : A -> B) l :
  first_hit f (map g l) = first_hit (fun a => f (g a)) l.
Proof.
  induction l as [|a l IH]; simpl; [reflexivity|].
  rewrite IH. reflexivity.
Qed.

Lemma first_hit_filter {A B : Type} (f : A -> option B) (keep : A -> bool) l :
  (forall a, In a l -> keep a = false -> f a = None) ->
  first_hit f (filter keep l) = first_hit f l.
Proof.
  induction l as [|a l IH]; intros E; simpl; [reflexivity|].
  assert (IH' : first_hit f (filter keep l) = first_hit f l).
  { apply IH. intros a' Ha'. apply E. right. exact Ha'. }
  destruct (keep a) eqn:Ka; simpl.
  - rewrite IH'. reflexivity.
  - rewrite (E a (or_introl eq_refl) Ka). exact IH'.
Qed.

Lemma with_prop_get {A B : Type} (f : A -> option B) k (props : list (string * A)) :
  with_prop f k props =
  match get_prop k props with
  | Some v => f v
  | None => None
  end.
Proof.
  unfold get_prop.
  induction props as [|[k' v] props IH]; simpl; [reflexivity|].
  destruct (String.eqb k k'); [reflexivity | exact IH].
Qed.

Lemma get_prop_in {A : Type} k (v : A) props :
  get_prop k props = Some v -> In (k, v) props.
Proof.
  unfold get_prop.
  induction props as [|[k' v'] props IH]; simpl; [discriminate|].
  destruct (String.eqb k k') eqn:E.
  - apply String.eqb_eq in E. subst k'. intros [= ->]. left. reflexivity.
  - intros Hg. right. apply IH, Hg.
Qed.

(** An object has one value under a key. *)
Lemma in_get_prop {A : Type} k (v : A) props :
  NoDup (map fst props) -> In (k, v) props -> get_prop k props = Some v.
Proof.
  unfold get_prop.
  induction props as [|[k' v'] props IH]; simpl; intros ND Hin; [contradiction|].
  inversion ND as [|? ? Hk' ND']; subst.
  destruct Hin as [[= -> ->]|Hin].
  - rewrite String.eqb_refl. reflexivity.
  - destruct (String.eqb k k') eqn:E.
    + apply String.eqb_eq in E. subst k'. exfalso. apply Hk'.
      change k with (fst (k, v)). apply in_map, Hin.
    + apply IH; assumption.
Qed.

(** ** The mask locator *)

Section MaskLocator.
Context {num : Type} `{JsNumber num}.
Import ReplicateSeg.

Lemma startsWith_nonempty s p :
  p <> EmptyString -> startsWith s p = true -> s <> EmptyString.
Proof.
  intros Hp Hs ->. destruct p; [congruence | discriminate].
Qed.

Lemma is_mask_string_nonempty s : is_mask_string s = true -> s <> EmptyString.
Proof.
  unfold is_mask_string. intros Hs.
  apply andb_true_iff in Hs. destruct Hs as [Hs _].
  apply orb_true_iff in Hs.
  destruct Hs as [Hs|Hs]; revert Hs; apply startsWith_nonempty; discriminate.
Qed.

(** The equations of [findMaskUrl], one per shape of value. *)
Lemma findMaskUrl_str s :
  findMaskUrl (JStr s) = if is_mask_string s then Some s else None.
Proof.
  destruct s as [|c s]; [reflexivity|].
  simpl. destruct (is_mask_string (String c s)); reflexivity.
Qed.

Lemma findMaskUrl_arr items :
  findMaskUrl (JArr items) = first_hit findMaskUrl items.
Proof.
  cbn [findMaskUrl truthy negb].
  destruct (first_hit findMaskUrl items); reflexivity.
Qed.

Lemma findMaskUrl_falsy v : truthy v = false -> findMaskUrl v = None.
Proof.
  intros Hv. destruct v; cbn [findMaskUrl]; rewrite Hv; reflexivity.
Qed.

Lemma findMaskUrl_scalar v :
  match v with JNull | JBool _ | JNum _ => True | _ => False end ->
  findMaskUrl v = None.
Proof.
  destruct v; try contradiction; intros _; cbn [findMaskUrl];
    match goal with |- context [negb ?b] => destruct b end; reflexivity.
Qed.

Lemma guarded_findMaskUrl v :
  (if truthy v then findMaskUrl v else None) = findMaskUrl v.
Proof.
  destruct (truthy v) eqn:Hv; [reflexivity|].
  symmetry. apply findMaskUrl_falsy, Hv.
Qed.

Lemma findMaskUrl_obj props :
  findMaskUrl (JObj props) =
  match first_hit findMaskUrl (priority_values props) with
  | Some v => Some v
  | None => first_hit findMaskUrl (map snd props)
  end.
Proof.
  cbn [findMaskUrl truthy negb].
  unfold priority_values. rewrite first_hit_flat_map, first_hit_map.
  replace (first_hit _ priority_keys)
    with (first_hit
            (fun k => first_hit findMaskUrl
                        match get_prop k props with
                        | Some v => [v]
                        | None => []
                        end) priority_keys).
  - reflexivity.
  - apply first_hit_ext. intros k _. rewrite with_prop_get.
    destruct (get_prop k props) as [v|]; [|reflexivity].
    rewrite guarded_findMaskUrl. simpl.
    destruct (findMaskUrl v); reflexivity.
Qed.

Lemma in_priority_values k v (props : list (string * json num)) :
  In k priority_keys -> get_prop k props = Some v -> In v (priority_values props).
Proof.
  intros Hk Hg. unfold priority_values. apply in_flat_map.
  exists k. split; [exact Hk|]. rewrite Hg. left. reflexivity.
Qed.

Lemma priority_values_in v (props : list (string * json num)) :
  In v (priority_values props) -> exists k, In (k, v) props.
Proof.
  unfold priority_values. intros Hv. apply in_flat_map in Hv.
  destruct Hv as (k & _ & Hv).
  destruct (get_prop k props) as [v'|] eqn:Hg; [|contradiction].
  destruct Hv as [<-|[]]. exists k. apply get_prop_in, Hg.
Qed.

Lemma includes_in xs x : includes xs x = true <-> In x xs.
Proof.
  unfold includes. rewrite existsb_exists. split.
  - intros (y & Hy & E). apply String.eqb_eq in E. subst. exact Hy.
  - intros Hx. exists x. split; [exact Hx | apply String.eqb_refl].
Qed.

(** With one value per key, scanning every key after the priority keys finds
    what scanning the remaining keys finds. *)
Lemma findMaskUrl_obj_remaining props :
  NoDup (map fst props) ->
  findMaskUrl (JObj props) =
  first_hit findMaskUrl (priority_values props ++ remaining_values props).
Proof.
  intros ND. rewrite findMaskUrl_obj, first_hit_app.
  destruct (first_hit findMaskUrl (priority_values props)) eqn:Hp; [reflexivity|].
  unfold remaining_values. rewrite !first_hit_map.
  symmetry. apply first_hit_filter. intros [k v] Hin Hk. cbn [fst snd] in *.
  apply negb_false_iff, includes_in in Hk.
  destruct (first_hit_none findMaskUrl (priority_values props)) as [Hn _].
  apply (Hn Hp). apply in_priority_values with (k := k); [exact Hk|].
  apply in_get_prop; assumption.
Qed.

(** A result is a string of the structure that passes the test. *)
Lemma findMaskUrl_sound out s :
  findMaskUrl out = Some s -> In s (strings_of out) /\ is_mask_string s = true.
Proof.
  revert s. induction out as [| b | x | s0 | items IH | props IH] using json_ind;
    intros s Hs.
  - discriminate.
  - rewrite findMaskUrl_scalar in Hs by exact I. discriminate.
  - rewrite findMaskUrl_scalar in Hs by exact I. discriminate.
  - rewrite findMaskUrl_str in Hs.
    destruct (is_mask_string s0) eqn:E; [|discriminate].
    injection Hs as <-. split; [left; reflexivity | exact E].
  - rewrite findMaskUrl_arr in Hs. apply first_hit_some in Hs.
    destruct Hs as (before & a & after & -> & _ & Ha).
    rewrite Forall_forall in IH.
    destruct (IH a (in_elt a before after) s Ha) as [Hin Hok].
    split; [|exact Hok]. simpl. apply in_flat_map. exists a.
    split; [apply in_elt | exact Hin].
  - rewrite Forall_forall in IH.
    assert (Hany : forall k v, In (k, v) props -> findMaskUrl v = Some s ->
                               In s (strings_of (JObj props)) /\ is_mask_string s = true).
    { intros k v Hin Hv. destruct (IH (k, v) Hin s Hv) as [Hs' Hok].
      split; [|exact Hok]. simpl. apply in_flat_map. exists (k, v).
      split; [exact Hin | exact Hs']. }
    rewrite findMaskUrl_obj in Hs.
    destruct (first_hit findMaskUrl (priority_values props)) eqn:Hp.
    + injection Hs as ->. apply first_hit_some in Hp.
      destruct Hp as (before & v & after & E & _ & Hv).
      assert (Hv' : In v (priority_values props)) by (rewrite E; apply in_elt).
      apply priority_values_in in Hv'. destruct Hv' as [k Hin].
      exact (Hany k v Hin Hv).
    + rewrite first_hit_map in Hs. apply first_hit_some in Hs.
      destruct Hs as (before & [k v] & after & E & _ & Hv). simpl in Hv.
      apply (Hany k v); [rewrite E; apply in_elt | exact Hv].
Qed.

(** A structure with a string that passes the test has a result. *)
Lemma findMaskUrl_none out :
  (forall s, In s (strings_of out) -> is_mask_string s = false) ->
  findMaskUrl out = None.
Proof.
  intros Hno. destruct (findMaskUrl out) as [s|] eqn:E; [|reflexivity].
  apply findMaskUrl_sound in E. destruct E as [Hin Hok].
  rewrite (Hno s Hin) in Hok. discriminate.
Qed.

End MaskLocator.

(** ** [split], and the extension of a text *)

Lemma append_assoc (s1 s2 s3 : string) :
  ((s1 ++ s2) ++ s3 = s1 ++ (s2 ++ s3))%string.
Proof. induction s1 as [|a s1 IH]; simpl; [reflexivity | rewrite IH; reflexivity]. Qed.

Lemma length_append (s1 s2 : string) :
  String.length (s1 ++ s2) = String.length s1 + String.length s2.
Proof. induction s1 as [|a s1 IH]; simpl; [reflexivity | rewrite IH; reflexivity]. Qed.

Lemma append_empty_r (s : string) : (s ++ EmptyString)%string = s.
Proof. induction s as [|a s IH]; simpl; [reflexivity | rewrite IH; reflexivity]. Qed.

Section Split.
Variable c : ascii.

Lemma split_nonempty s : split c s <> [].
Proof.
  destruct s as [|a s]; simpl; [discriminate|].
  destruct (Ascii.eqb a c); [discriminate|].
  destruct (split c s); discriminate.
Qed.

Lemma join_split s : join c (split c s) = s.
Proof.
  induction s as [|a s IH]; [reflexivity|].
  simpl. destruct (Ascii.eqb a c) eqn:E.
  - apply Ascii.eqb_eq in E. subst a.
    destruct (split c s) as [|p ps] eqn:Es; [destruct (split_nonempty _ Es)|].
    cbn [join]. cbn [join] in IH. simpl. rewrite IH. reflexivity.
  - destruct (split c s) as [|p ps] eqn:Es; [destruct (split_nonempty _ Es)|].
    destruct ps as [|q ps]; simpl in *; rewrite IH; reflexivity.
Qed.

Lemma split_pieces s : Forall (fun p => ~ occurs c p) (split c s).
Proof.
  induction s as [|a s IH]; simpl.
  - constructor; [intros [] | constructor].
  - destruct (Ascii.eqb a c) eqn:E.
    + constructor; [intros [] | exact IH].
    + destruct (split c s) as [|p ps]; [constructor; [|constructor]|].
      * intros [->|[]]. rewrite Ascii.eqb_refl in E. discriminate.
      * inversion IH as [|? ? Hp Hps]; subst. constructor; [|exact Hps].
        intros [->|Hin]; [rewrite Ascii.eqb_refl in E; discriminate | exact (Hp Hin)].
Qed.

Lemma split_without p : ~ occurs c p -> split c p = [p].
Proof.
  induction p as [|a p IH]; intros Hp; [reflexivity|].
  simpl. destruct (Ascii.eqb a c) eqn:E.
  - apply Ascii.eqb_eq in E. subst a. exfalso. apply Hp. left. reflexivity.
  - rewrite IH; [reflexivity|]. intros Hin. apply Hp. right. exact Hin.
Qed.

Lemma split_at p rest :
  ~ occurs c p -> split c (p ++ String c rest) = p :: split c rest.
Proof.
  induction p as [|a p IH]; intros Hp; simpl.
  - rewrite Ascii.eqb_refl. reflexivity.
  - destruct (Ascii.eqb a c) eqn:E.
    + apply Ascii.eqb_eq in E. subst a. exfalso. apply Hp. left. reflexivity.
    + rewrite IH; [reflexivity|]. intros Hin. apply Hp. right. exact Hin.
Qed.

(** The first piece is the text before the first separator. *)
Lemma first_piece_split s :
  ~ occurs c (first_piece (split c s))
  /\ (s = first_piece (split c s)
      \/ exists rest, s = (first_piece (split c s) ++ String c rest)%string).
Proof.
  pose proof (join_split s) as J. pose proof (split_pieces s) as F.
  destruct (split c s) as [|p ps] eqn:Es; [destruct (split_nonempty _ Es)|].
  apply Forall_inv in F. split; [exact F|].
  destruct ps as [|q ps]; simpl in *; [left; congruence|].
  right. eexists. symmetry. exact J.
Qed.

Lemma join_last pieces p q :
  join c ((p :: pieces) ++ [q]) = (join c (p :: pieces) ++ String c q)%string.
Proof.
  revert p. induction pieces as [|r pieces IH]; intros p; [reflexivity|].
  change (join c ((p :: r :: pieces) ++ [q]))
    with (p ++ String c (join c ((r :: pieces) ++ [q])))%string.
  rewrite IH.
  change (join c (p :: r :: pieces)) with (p ++ String c (join c (r :: pieces)))%string.
  rewrite append_assoc. reflexivity.
Qed.

(** The last piece is the text after the last separator. *)
Lemma pop_split s :
  ~ occurs c (pop (split c s))
  /\ (s = pop (split c s)
      \/ exists stem, s = (stem ++ String c (pop (split c s)))%string).
Proof.
  pose proof (join_split s) as J. pose proof (split_pieces s) as F.
  destruct (exists_last (split_nonempty s)) as (pieces & e & Es).
  unfold pop. rewrite Es in *. rewrite last_last.
  apply Forall_app in F. destruct F as [_ F].
  apply Forall_inv in F. split; [exact F|].
  destruct pieces as [|p pieces]; [left; symmetry; exact J|].
  right. exists (join c (p :: pieces)). rewrite <- J. apply join_last.
Qed.

Lemma pop_split_at stem ext :
  ~ occurs c ext -> pop (split c (stem ++ String c ext)) = ext.
Proof.
  intros He. induction stem as [|a stem IH]; simpl.
  - rewrite Ascii.eqb_refl, split_without by exact He. reflexivity.
  - pose proof (join_split (stem ++ String c ext)) as J.
    destruct (split c (stem ++ String c ext)) as [|p ps] eqn:Es;
      [destruct (split_nonempty _ Es)|].
    destruct (Ascii.eqb a c); [exact IH|].
    destruct ps as [|q ps]; [|exact IH].
    exfalso. unfold pop in IH. simpl in IH, J. subst p.
    apply (f_equal String.length) in J.
    rewrite length_append in J. simpl in J. lia.
Qed.

End Split.

(** ** The acceptance rule *)

Section AcceptanceRule.
Import ReplicateSeg.

Lemma extension_without_scheme s ext :
  In ext image_extensions ->
  (s = ext \/ exists query, s = (ext ++ String "?"%char query)%string) ->
  startsWith s "http" = false.
Proof.
  intros Hext Hs. simpl in Hext.
  destruct Hext as [<-|[<-|[<-|[<-|[]]]]]; destruct Hs as [->|[q ->]]; reflexivity.
Qed.

(** The test of the code is the rule of the specification. *)
Lemma is_mask_string_rule s : is_mask_string s = true <-> mask_reference s.
Proof.
  unfold is_mask_string, mask_reference.
  rewrite andb_true_iff, !orb_true_iff, includes_in. split.
  - intros [Hscheme [Hext|Hdata]]; (split; [exact Hscheme|]); [|left; exact Hdata].
    destruct Hscheme as [Hhttp|Hdata]; [|left; exact Hdata].
    right. unfold extension_of in Hext.
    destruct (first_piece_split "?" s) as [Hq Hs].
    destruct (pop_split "." (first_piece (split "?" s))) as [Hdot Hp].
    set (path := first_piece (split "?" s)) in *.
    set (ext := pop (split "." path)) in *.
    destruct Hp as [Hp|[stem Hp]].
    + exfalso. rewrite Hp in Hs.
      rewrite (extension_without_scheme Hext Hs) in Hhttp. discriminate.
    + exists path, stem, ext. repeat split; assumption.
  - intros [Hscheme [Hdata|Himg]]; (split; [exact Hscheme|]); [right; exact Hdata|].
    left. destruct Himg as (path & stem & ext & Hs & Hq & Hp & Hdot & Hext).
    assert (E : first_piece (split "?" s) = path).
    { destruct Hs as [->|[query ->]].
      - rewrite split_without by exact Hq. reflexivity.
      - rewrite split_at by exact Hq. reflexivity. }
    unfold extension_of. rewrite E, Hp, pop_split_at by exact Hdot. exact Hext.
Qed.

Lemma not_mask_string_rule s : ~ mask_reference s -> is_mask_string s = false.
Proof.
  intros Hs. destruct (is_mask_string s) eqn:E; [|reflexivity].
  apply is_mask_string_rule in E. contradiction.
Qed.

End AcceptanceRule.

(** ** The poll loop *)

Section PollLoop.
Context {num : Type} `{JsNumber num}.
Import ReplicateSeg.

Lemma poll_events_S k :
  poll_events (S k) = Sleep poll_interval_ms :: Get :: poll_events k.
Proof. reflexivity. Qed.




End PollLoop.

(** ** The claims on the mask locator *)

Section MaskLocatorClaims.
Context {num : Type} `{JsNumber num}.
Import ReplicateSeg.

(** C3 (amended).  On [{ segmentation: { mask: a }, overlay: b }], for a
    string [a] that passes the locator's test (a text such as
    "https://host/a.png": a scheme prefix and an allow-listed extension) and
    any value [b], [findMaskUrl] returns [a]: the priority key
    [segmentation] is explored, and the [mask] inside it found, before the
    later priority key [overlay], in whichever order the object lists its
    two properties. *)
Theorem nested_mask_found (a : string) (b : json num) :
  is_mask_string a = true ->
  findMaskUrl (Examples.nested_mask a b) = Some a
  /\ findMaskUrl (Examples.nested_mask_last a b) = Some a.
Proof.
  intros Ha.
  assert (Hin : findMaskUrl (JObj [("mask"%string, JStr a)]) = Some a).
  { rewrite findMaskUrl_obj. unfold priority_values. cbn -[findMaskUrl].
    rewrite findMaskUrl_str, Ha. reflexivity. }
  split; unfold Examples.nested_mask, Examples.nested_mask_last;
    rewrite findMaskUrl_obj; unfold priority_values; cbn -[findMaskUrl];
    rewrite Hin; reflexivity.
Qed.

(** C6.  A result of the locator is a string of the structure that obeys
    the rule [mask_reference]: a scheme prefix ([http], hence [https], or
    [data:]) and then the [data:] prefix or an extension among png, jpg,
    jpeg and webp at the end of the query-stripped text.  A structure none
    of whose strings obeys the rule yields [null]; and for a prediction that
    is not [failed] this [null] is returned in the result, [maskUrl] empty,
    which [/api/segment] answers with code 200. *)
Theorem mask_reference_or_null :
  (forall (out : json num) s,
      findMaskUrl out = Some s -> In s (strings_of out) /\ mask_reference s)
  /\ (forall out : json num,
        (forall s, In s (strings_of out) -> ~ mask_reference s) ->
        findMaskUrl out = None)
  /\ (forall (prediction : json num) status,
        status_of prediction = Return status ->
        status_is status "failed" = false ->
        (forall s, In s (strings_of_opt (prop_of prediction "output")) ->
                   ~ mask_reference s) ->
        finish prediction = Return {| prediction := prediction; maskUrl := None |})
  /\ (forall env svc file image seg,
        snd (runModelVersion env svc (JStr file)) = Return seg ->
        (forall s, In s (strings_of_opt (prop_of (prediction seg) "output")) ->
                   ~ mask_reference s) ->
        maskUrl seg = None
        /\ Server.segment env svc (Some file) image =
           {| Server.code := 200; Server.body := Server.Segmented seg |}).
Proof.
  assert (Hnone : forall out : json num,
             (forall s, In s (strings_of out) -> ~ mask_reference s) ->
             findMaskUrl out = None).
  { intros out Hno. apply findMaskUrl_none. intros s Hs.
    apply not_mask_string_rule, Hno, Hs. }
  assert (Hopt : forall out : option (json num),
             (forall s, In s (strings_of_opt out) -> ~ mask_reference s) ->
             findMaskUrl_opt out = None).
  { intros [out|] Hno; [apply Hnone, Hno | reflexivity]. }
  assert (Hfinish : forall (p : json num) r,
             finish p = Return r ->
             r = {| prediction := p; maskUrl := findMaskUrl_opt (prop_of p "output") |}).
  { intros p r. unfold finish. destruct (status_of p) as [st|e]; [|discriminate].
    simpl. destruct (status_is st "failed"); [discriminate|]. congruence. }
  split; [|split; [exact Hnone|split]].
  - intros out s Hs. apply findMaskUrl_sound in Hs. destruct Hs as [Hin Hok].
    split; [exact Hin | apply is_mask_string_rule, Hok].
  - intros p status Hst Hfailed Hno. unfold finish. rewrite Hst. simpl.
    rewrite Hfailed, (Hopt _ Hno). reflexivity.
  - intros env svc file image seg Hrun Hno.
    assert (Hmask : maskUrl seg = None).
    { revert Hrun Hno. unfold runModelVersion.
      destruct (is_set (REPLICATE_API_TOKEN env)); [|discriminate].
      destruct (REPLICATE_MODEL_VERSION env) as [version|]; [|discriminate].
      destruct (String.eqb version EmptyString); [discriminate|].
      destruct (create svc version (JStr file)) as [data|]; [|discriminate].
      destruct (if truthy_opt (predictionUrl data) then _ else _) as [events [p|e]];
        [|discriminate].
      cbn. intros Hp Hno. apply Hfinish in Hp. subst seg. cbn in *.
      apply Hopt, Hno. }
    split; [exact Hmask|].
    unfold Server.segment. rewrite Hrun. reflexivity.
Qed.

(** C7.  The search is depth first in a fixed order, and the first string
    that passes the test wins: a string is tested as it is met; an array is
    searched item by item in its own order; an object (one value per key) is
    searched under the keys mask, masks, segmentation, segmented_image and
    overlay, in that order, and then under its remaining keys in their own
    order.  The result is a function of the structure: two runs on the same
    input return the same. *)
Theorem search_order_fixed :
  (forall s, findMaskUrl (JStr s : json num) = if is_mask_string s then Some s else None)
  /\ (forall items : list (json num),
        findMaskUrl (JArr items) = first_hit findMaskUrl items)
  /\ (forall props : list (string * json num),
        NoDup (map fst props) ->
        findMaskUrl (JObj props) =
        first_hit findMaskUrl (priority_values props ++ remaining_values props))
  /\ (forall (values : list (json num)) s,
        first_hit findMaskUrl values = Some s <->
        exists before v after,
          values = before ++ v :: after
          /\ (forall v', In v' before -> findMaskUrl v' = None)
          /\ findMaskUrl v = Some s)
  /\ (forall (out : json num) r1 r2,
        findMaskUrl out = r1 -> findMaskUrl out = r2 -> r1 = r2).
Proof.
  split; [exact findMaskUrl_str|].
  split; [exact findMaskUrl_arr|].
  split; [exact findMaskUrl_obj_remaining|].
  split; [intros values s; apply first_hit_some|].
  intros out r1 r2 <- <-. reflexivity.
Qed.

End MaskLocatorClaims.

(** C3, as stated: on the structure of the specification, whose strings
    "a.png" and "b.png" begin with neither [http] nor [data:], the locator
    returns [null]. *)
Lemma bare_file_names_rejected :
  ReplicateSeg.findMaskUrl
    (Examples.nested_mask "a.png" (JStr "b.png" : json float)) = None
  /\ ReplicateSeg.findMaskUrl
       (Examples.nested_mask "a.png" (JStr "b.png" : json float)) <> Some "a.png"%string.
Proof. split; [reflexivity | discriminate]. Qed.

Lemma nested_mask_found_witness :
  ReplicateSeg.is_mask_string "https://replicate.delivery/a.png" = true
  /\ ReplicateSeg.findMaskUrl
       (Examples.nested_mask "https://replicate.delivery/a.png"
          (JStr "https://replicate.delivery/b.png" : json float))
     = Some "https://replicate.delivery/a.png"%string.
Proof.
  split; [reflexivity|].
  apply (nested_mask_found (num := float)
           "https://replicate.delivery/a.png"
           (JStr "https://replicate.delivery/b.png")).
  reflexivity.
Defined.

Lemma mask_reference_or_null_witness :
  snd (ReplicateSeg.runModelVersion Examples.env Examples.immediate (JStr Examples.photo))
  = Return {| ReplicateSeg.prediction := Examples.succeeded_without_mask;
              ReplicateSeg.maskUrl := None |}
  /\ Server.segment Examples.env Examples.immediate (Some Examples.photo) None
     = {| Server.code := 200;
          Server.body := Server.Segmented
            {| ReplicateSeg.prediction := Examples.succeeded_without_mask;
               ReplicateSeg.maskUrl := None |} |}.
Proof.
  split; [reflexivity|].
  apply (proj2 (proj2 (proj2 (mask_reference_or_null (num := float))))
           Examples.env Examples.immediate Examples.photo None).
  - reflexivity.
  - intros s Hs Hrule. apply is_mask_string_rule in Hrule.
    simpl in Hs.
    destruct Hs as [<-|[<-|[]]]; vm_compute in Hrule; discriminate.
Defined.

Lemma search_order_fixed_witness :
  NoDup (map fst Examples.several_keys)
  /\ ReplicateSeg.findMaskUrl (JObj Examples.several_keys)
     = Some "https://replicate.delivery/m1.webp"%string.
Proof.
  assert (ND : NoDup (map fst Examples.several_keys)).
  { repeat constructor; simpl; intuition discriminate. }
  split; [exact ND|].
  rewrite (proj1 (proj2 (proj2 (search_order_fixed (num := float)))) _ ND).
  reflexivity.
Defined.

(** ** The claim on the poll loop *)

Section PollCap.
Context {num : Type} `{JsNumber num}.
Import ReplicateSeg.


End PollCap.



(** ** The pixel fraction meter *)

Section PixelMeter.
Local Open Scope Z_scope.

Lemma is_food_rule r g b alpha :
  is_food (r, g, b, alpha) = true <->
  alpha > 10 \/ (alpha <= 10 /\ r + g + b > 10).
Proof.
  unfold is_food.
  rewrite orb_true_iff, andb_true_iff, !Z.gtb_gt, Z.leb_le. lia.
Qed.

Lemma count_pixels_image_data pixels :
  forall total maskPixels,
    App.count_pixels (image_data pixels) total maskPixels =
    (total + Z.of_nat (List.length pixels), maskPixels + food_count pixels).
Proof.
  unfold food_count.
  induction pixels as [|[[[r g] b] alpha] pixels IH]; intros total maskPixels.
  - simpl. rewrite !Z.add_0_r. reflexivity.
  - cbn [image_data App.count_pixels]. rewrite IH.
    cbn [filter]. unfold is_food at 2.
    destruct (alpha >? 10) eqn:Ea.
    + cbn [orb List.length]. f_equal; lia.
    + assert (El : (alpha <=? 10) = true).
      { apply Z.leb_le. rewrite Z.gtb_ltb in Ea. apply Z.ltb_ge in Ea. exact Ea. }
      rewrite El. cbn [orb andb].
      destruct (r + g + b >? 10); cbn [List.length]; f_equal; lia.
Qed.

Lemma food_count_all pixels :
  Forall (fun px => is_food px = true) pixels ->
  food_count pixels = Z.of_nat (List.length pixels).
Proof.
  unfold food_count. intros Hall. f_equal.
  induction Hall as [|px pixels Hpx _ IH]; [reflexivity|].
  simpl. rewrite Hpx. simpl. rewrite IH. reflexivity.
Qed.

Lemma food_count_none pixels :
  Forall (fun px => is_food px = false) pixels -> food_count pixels = 0.
Proof.
  unfold food_count. intros Hall.
  induction Hall as [|px pixels Hpx _ IH]; [reflexivity|].
  simpl. rewrite Hpx. exact IH.
Qed.

Lemma divide_whole n : 0 < n -> exists q, App.divide n n = Some q /\ Qeq q 1.
Proof.
  intros Hn. unfold App.divide.
  destruct (n =? 0) eqn:E; [apply Z.eqb_eq in E; lia|].
  eexists. split; [reflexivity|].
  unfold Qeq. simpl. rewrite Z2Pos.id by exact Hn. lia.
Qed.

Lemma divide_nothing n : 0 < n -> exists q, App.divide 0 n = Some q /\ Qeq q 0.
Proof.
  intros Hn. unfold App.divide.
  destruct (n =? 0) eqn:E; [apply Z.eqb_eq in E; lia|].
  eexists. split; [reflexivity|]. unfold Qeq. simpl. reflexivity.
Qed.

Lemma length_pos {A : Type} (l : list A) : l <> [] -> 0 < Z.of_nat (List.length l).
Proof. destruct l; [congruence | simpl; lia]. Qed.

(** With a positive total, [maskPixels / total] is the quotient of the two
    counts as rationals. *)
Lemma divide_ratio m n :
  0 < n ->
  exists q, App.divide m n = Some q /\ Qeq q (Qdiv (inject_Z m) (inject_Z n)).
Proof.
  intros Hn. unfold App.divide.
  destruct n as [|p|p]; try lia.
  cbn [Z.eqb]. eexists. split; [reflexivity|].
  unfold Qeq, Qdiv, Qmult, Qinv, inject_Z. simpl. lia.
Qed.

End PixelMeter.

(** C9.  A pixel is food exactly when its alpha exceeds 10, or its alpha is
    at most 10 and its red, green and blue sum to more than 10.  On the image
    data of any pixels, at least one, the meter resolves to a number: the
    number of food pixels divided by the number of pixels.  On no pixels it
    resolves to the result of 0 / 0, which is no number.  Hence pixels (at
    least one) that all have alpha 255 give 1, and pixels that are all
    transparent black give 0. *)
Theorem pixel_fraction_is_food_ratio :
  (forall r g b alpha,
      is_food (r, g, b, alpha) = true <->
      (alpha > 10 \/ (alpha <= 10 /\ r + g + b > 10))%Z)
  /\ (forall pixels,
        pixels <> [] ->
        exists q, App.computeMaskPixelFraction (Some (image_data pixels)) =
                  App.Resolved (Some q)
                  /\ Qeq q (Qdiv
                              (inject_Z (Z.of_nat (List.length (filter is_food pixels))))
                              (inject_Z (Z.of_nat (List.length pixels)))))
  /\ App.computeMaskPixelFraction (Some (image_data [])) = App.Resolved None
  /\ (forall pixels,
        pixels <> [] ->
        Forall (fun px => snd px = 255%Z) pixels ->
        exists q, App.computeMaskPixelFraction (Some (image_data pixels)) =
                  App.Resolved (Some q) /\ Qeq q 1)
  /\ (forall pixels,
        pixels <> [] ->
        Forall (fun px => px = (0, 0, 0, 0)%Z) pixels ->
        exists q, App.computeMaskPixelFraction (Some (image_data pixels)) =
                  App.Resolved (Some q) /\ Qeq q 0).
Proof.
  assert (Hratio : forall pixels,
             App.computeMaskPixelFraction (Some (image_data pixels)) =
             App.Resolved (App.divide (food_count pixels) (Z.of_nat (List.length pixels)))).
  { intros pixels. unfold App.computeMaskPixelFraction.
    rewrite count_pixels_image_data. reflexivity. }
  split; [exact is_food_rule|].
  split.
  { intros pixels Hne. rewrite Hratio.
    destruct (divide_ratio (food_count pixels) (length_pos Hne)) as (q & Hq & E).
    exists q. rewrite Hq. split; [reflexivity | exact E]. }
  split; [reflexivity|].
  split; intros pixels Hne Hall; rewrite Hratio.
  - rewrite food_count_all.
    + destruct (divide_whole (length_pos Hne)) as (q & Hq & E).
      exists q. rewrite Hq. split; [reflexivity | exact E].
    + eapply Forall_impl; [|exact Hall].
      intros [[[r g] b] alpha] Ha. simpl in Ha. subst alpha. reflexivity.
  - rewrite food_count_none.
    + destruct (divide_nothing (length_pos Hne)) as (q & Hq & E).
      exists q. rewrite Hq. split; [reflexivity | exact E].
    + eapply Forall_impl; [|exact Hall]. intros px ->. reflexivity.
Qed.

Lemma pixel_fraction_is_food_ratio_witness :
  (exists q, App.computeMaskPixelFraction
               (Some [255; 0; 0; 255; 255; 0; 0; 255; 255; 0; 0; 255]%Z)
             = App.Resolved (Some q) /\ Qeq q 1)
  /\ (exists q, App.computeMaskPixelFraction
                  (Some [0; 0; 0; 0; 0; 0; 0; 0]%Z)
                = App.Resolved (Some q) /\ Qeq q 0)
  /\ (exists q, App.computeMaskPixelFraction
                  (Some [0; 0; 0; 0; 200; 180; 90; 255; 0; 0; 0; 3]%Z)
                = App.Resolved (Some q) /\ Qeq q (Qmake 1 3)).
Proof.
  split; [|split].
  - apply (proj1 (proj2 (proj2 (proj2 pixel_fraction_is_food_ratio)))
             [(255, 0, 0, 255); (255, 0, 0, 255); (255, 0, 0, 255)]%Z).
    + discriminate.
    + repeat constructor.
  - apply (proj2 (proj2 (proj2 (proj2 pixel_fraction_is_food_ratio)))
             [(0, 0, 0, 0); (0, 0, 0, 0)]%Z).
    + discriminate.
    + repeat constructor.
  - destruct (proj1 (proj2 pixel_fraction_is_food_ratio)
                [(0, 0, 0, 0); (200, 180, 90, 255); (0, 0, 0, 3)]%Z)
      as (q & Hq & E); [discriminate|].
    exists q. split; [exact Hq|].
    rewrite E. reflexivity.
Defined.

(** ** The density reply *)

Section NumberPattern.
Import Server.

Lemma take_digits_spec s :
  s = (fst (take_digits s) ++ snd (take_digits s))%string
  /\ Forall (fun c => is_digit c = true) (list_ascii_of_string (fst (take_digits s)))
  /\ not_digit_head (snd (take_digits s)).
Proof.
  induction s as [|c s (E & Hd & Hh)]; simpl.
  - repeat split. constructor.
  - destruct (is_digit c) eqn:Ec.
    + destruct (take_digits s) as [ds after]. simpl in *.
      repeat split; [congruence | constructor; assumption | exact Hh].
    + simpl. repeat split; [constructor | exact Ec].
Qed.

Lemma take_digits_app ds rest :
  Forall (fun c => is_digit c = true) (list_ascii_of_string ds) ->
  not_digit_head rest ->
  take_digits (ds ++ rest) = (ds, rest).
Proof.
  intros Hd Hr. induction ds as [|c ds IH]; simpl.
  - destruct rest as [|c rest]; [reflexivity|]. simpl in *. rewrite Hr. reflexivity.
  - simpl in Hd. inversion Hd as [|? ? Hc Hds]; subst.
    rewrite Hc, (IH Hds). reflexivity.
Qed.

Lemma all_digits_head s :
  all_digits s -> exists c rest, s = String c rest /\ is_digit c = true.
Proof.
  intros [Hne Hd]. destruct s as [|c rest]; [congruence|].
  simpl in Hd. inversion Hd; subst. exists c, rest. split; [reflexivity | assumption].
Qed.

Lemma numeric_literal_head m :
  numeric_literal m -> exists c rest, m = String c rest /\ is_digit c = true.
Proof.
  intros [Hm|(int & frac & -> & Hint & _)].
  - apply all_digits_head, Hm.
  - destruct (all_digits_head Hint) as (c & rest & -> & Hc).
    exists c. eexists. split; [reflexivity | exact Hc].
Qed.

Lemma point_not_digit_head rest : not_digit_head (String "." rest).
Proof. reflexivity. Qed.

(** A match that can start at the head of the text does. *)
Lemma match_number_head c rest :
  is_digit c = true ->
  exists m after,
    match_number (String c rest) = Some m
    /\ String c rest = (m ++ after)%string
    /\ numeric_literal m
    /\ not_digit_head after.
Proof.
  intros Hc. cbn [match_number]. rewrite Hc.
  destruct (take_digits_spec (String c rest)) as (E & Hd & Hh).
  destruct (take_digits (String c rest)) as [int after] eqn:Et. simpl in E, Hd, Hh.
  assert (Hint : all_digits int).
  { split; [|exact Hd]. intros ->. simpl in E. subst after.
    simpl in Hh. congruence. }
  unfold take_fraction.
  destruct after as [|a after1].
  - exists int, EmptyString. rewrite append_empty_r in *.
    repeat split; [exact E | left; exact Hint].
  - destruct (Ascii.eqb a ".") eqn:Ea.
    + apply Ascii.eqb_eq in Ea. subst a.
      destruct (take_digits_spec after1) as (E1 & Hd1 & Hh1).
      destruct (fst (take_digits after1)) as [|f frac].
      * exists int, (String "." after1). rewrite append_empty_r.
        repeat split; [exact E | left; exact Hint].
      * exists (int ++ String "." (String f frac))%string, (snd (take_digits after1)).
        split; [reflexivity|]. split; [|split; [|exact Hh1]].
        -- rewrite append_assoc. cbn [append] in *. rewrite <- E1. exact E.
        -- right. exists int, (String f frac).
           split; [reflexivity|]. split; [exact Hint|].
           split; [discriminate | exact Hd1].
    + exists int, (String a after1). rewrite append_empty_r.
      repeat split; [exact E | left; exact Hint | exact Hh].
Qed.

(** What [match] returns: the text is cut at its first digit, where the
    match begins, and the match is a numeric literal. *)
Lemma match_number_some text m :
  match_number text = Some m ->
  exists before after,
    text = (before ++ m ++ after)%string
    /\ no_digit before
    /\ numeric_literal m
    /\ not_digit_head after.
Proof.
  revert m. induction text as [|c rest IH]; intros m Hm; [discriminate|].
  destruct (is_digit c) eqn:Ec.
  - destruct (@match_number_head c rest Ec) as (m' & after & Hm' & E & Hlit & Hh).
    rewrite Hm' in Hm. injection Hm as <-.
    exists EmptyString, after. repeat split; [exact E | constructor | exact Hlit | exact Hh].
  - cbn [match_number] in Hm. rewrite Ec in Hm.
    destruct (IH m Hm) as (before & after & -> & Hb & Hlit & Hh).
    exists (String c before), after.
    repeat split; [constructor; assumption | exact Hlit | exact Hh].
Qed.

Lemma match_number_none text : match_number text = None <-> no_digit text.
Proof.
  unfold no_digit. induction text as [|c rest IH].
  - split; [constructor | reflexivity].
  - cbn [match_number list_ascii_of_string]. destruct (is_digit c) eqn:Ec.
    + destruct (take_digits (String c rest)) as [int after]. split; [discriminate|].
      intros Hn. inversion Hn; congruence.
    + rewrite IH. split; [constructor; assumption | intros Hn; inversion Hn; assumption].
Qed.

(** No match begins before the one found. *)
Lemma no_digit_before before rest before' c rest' :
  no_digit before ->
  is_digit c = true ->
  (before ++ rest)%string = (before' ++ String c rest')%string ->
  String.length before <= String.length before'.
Proof.
  revert before'. induction before as [|b before IH]; intros before' Hb Hc E.
  - simpl. lia.
  - inversion Hb as [|? ? Hb0 Hb']; subst.
    destruct before' as [|b' before']; simpl in E.
    + injection E as -> _. congruence.
    + injection E as _ E. simpl. apply le_n_S. exact (IH before' Hb' Hc E).
Qed.

Lemma no_digit_app s1 s2 : no_digit (s1 ++ s2)%string -> no_digit s2.
Proof.
  unfold no_digit. induction s1 as [|c s1 IH]; simpl; [tauto|].
  intros Hn. inversion Hn; auto.
Qed.

(** A text with a match has a digit. *)
Lemma literal_has_digit before m after :
  numeric_literal m -> ~ no_digit (before ++ m ++ after)%string.
Proof.
  intros Hlit Hn. apply no_digit_app in Hn.
  destruct (numeric_literal_head Hlit) as (c & rest & -> & Hc).
  unfold no_digit in Hn. simpl in Hn. inversion Hn; congruence.
Qed.

End NumberPattern.

Section ParseFloat.
Context {num : Type} `{JsNumber num}.
Import Server.

Lemma take_digits_all ds :
  Forall (fun c => is_digit c = true) (list_ascii_of_string ds) ->
  take_digits ds = (ds, EmptyString).
Proof.
  intros Hd. rewrite <- (append_empty_r ds) at 1.
  apply take_digits_app; [exact Hd | exact I].
Qed.

Lemma parseFloat_integer int :
  all_digits int -> parseFloat int = num_of_decimal (digits_value 0 int) 0.
Proof.
  intros [_ Hd]. unfold parseFloat. rewrite (take_digits_all int Hd). reflexivity.
Qed.

Lemma parseFloat_decimal int frac :
  all_digits int -> all_digits frac ->
  parseFloat (int ++ String "." frac) =
  num_of_decimal (digits_value 0 (int ++ frac)) (String.length frac).
Proof.
  intros [_ Hint] [_ Hfrac]. unfold parseFloat.
  rewrite take_digits_app by (exact Hint || reflexivity).
  rewrite Ascii.eqb_refl, (take_digits_all frac Hfrac). reflexivity.
Qed.

End ParseFloat.

Section LongestMatch.
Import Server.

Lemma take_digits_more ds rest :
  Forall (fun c => is_digit c = true) (list_ascii_of_string ds) ->
  take_digits (ds ++ rest) =
  ((ds ++ fst (take_digits rest))%string, snd (take_digits rest)).
Proof.
  intros Hd. induction ds as [|c ds IH]; simpl.
  - destruct (take_digits rest); reflexivity.
  - simpl in Hd. inversion Hd as [|? ? Hc Hds]; subst.
    rewrite Hc, (IH Hds). reflexivity.
Qed.

Lemma match_number_skip before s :
  no_digit before -> match_number (before ++ s) = match_number s.
Proof.
  unfold no_digit. induction before as [|c before IH]; intros Hb; [reflexivity|].
  simpl in Hb. inversion Hb as [|? ? Hc Hb']; subst.
  cbn [append match_number]. rewrite Hc. exact (IH Hb').
Qed.

Lemma append_same_length s1 t1 s2 t2 :
  (s1 ++ t1)%string = (s2 ++ t2)%string ->
  String.length s1 = String.length s2 ->
  s1 = s2 /\ t1 = t2.
Proof.
  revert s2. induction s1 as [|a s1 IH]; intros [|b s2] E L; simpl in *;
    try discriminate; [split; [reflexivity | exact E]|].
  injection E as -> E. injection L as L.
  destruct (IH s2 E L) as [-> ->]. split; reflexivity.
Qed.

(** Of the matches that start where the match found starts, it is the
    longest: the quantifiers of the pattern are greedy. *)
Lemma match_number_longest c rest m :
  match_number (String c rest) = Some m ->
  is_digit c = true ->
  forall m' after',
    String c rest = (m' ++ after')%string ->
    numeric_literal m' ->
    String.length m' <= String.length m.
Proof.
  intros Hm Hc m' after' E Hlit.
  cbn [match_number] in Hm. rewrite Hc in Hm.
  destruct (take_digits (String c rest)) as [int after] eqn:Et.
  injection Hm as <-. rewrite length_append.
  destruct Hlit as [[_ Hd]|(int' & frac' & -> & [_ Hint'] & [Hne Hfrac'])].
  - rewrite E, (take_digits_more _ _ Hd) in Et. injection Et as <- _.
    rewrite length_append. lia.
  - rewrite append_assoc in E. cbn [append] in E.
    rewrite E, take_digits_app in Et by (exact Hint' || reflexivity).
    injection Et as <- <-.
    unfold take_fraction. rewrite Ascii.eqb_refl, (take_digits_more _ _ Hfrac').
    cbn [fst]. rewrite length_append.
    destruct frac' as [|f frac']; [congruence|].
    cbn [append String.length]. rewrite length_append. simpl. lia.
Qed.

End LongestMatch.

Section DecimalNumbers.
Import Server.

Lemma is_digit_rule c : is_digit c = true <-> exists d, digit_of c = Some d.
Proof.
  destruct c as [[] [] [] [] [] [] [] []]; vm_compute;
    (split; [intros E; try discriminate E; eexists; reflexivity
            | intros [d E]; try discriminate E; reflexivity]).
Qed.

Lemma digit_code c d : digit_of c = Some d -> (N_of_ascii c - 48 = d)%N.
Proof.
  destruct c as [[] [] [] [] [] [] [] []]; vm_compute; intros E;
    try discriminate E; injection E as <-; reflexivity.
Qed.

(** The accumulating loop computes the positional value. *)
Lemma digits_value_decimal ds :
  Forall (fun c => is_digit c = true) (list_ascii_of_string ds) ->
  forall acc,
    digits_value acc ds =
    (acc * 10 ^ N.of_nat (String.length ds) + decimal_number ds)%N.
Proof.
  induction ds as [|c ds IH]; intros Hd acc.
  - simpl. lia.
  - simpl in Hd. inversion Hd as [|? ? Hc Hds]; subst.
    apply is_digit_rule in Hc. destruct Hc as [d Hc].
    cbn [digits_value decimal_number String.length]. rewrite Hc, (IH Hds).
    rewrite (@digit_code c d Hc), Nat2N.inj_succ, N.pow_succ_r'. lia.
Qed.

Lemma digits_value_app s1 s2 acc :
  digits_value acc (s1 ++ s2) = digits_value (digits_value acc s1) s2.
Proof.
  revert acc. induction s1 as [|c s1 IH]; intros acc; [reflexivity|].
  simpl. apply IH.
Qed.

Lemma digits_value_whole ds :
  all_digits ds -> digits_value 0 ds = decimal_number ds.
Proof.
  intros [_ Hd]. rewrite (@digits_value_decimal ds Hd). lia.
Qed.

Lemma digits_value_parts int frac :
  all_digits int -> all_digits frac ->
  digits_value 0 (int ++ frac) =
  (decimal_number int * 10 ^ N.of_nat (String.length frac) + decimal_number frac)%N.
Proof.
  intros Hint [_ Hfrac].
  rewrite digits_value_app, (@digits_value_whole int Hint).
  apply (@digits_value_decimal frac Hfrac).
Qed.

End DecimalNumbers.

Section ExactDecimals.
Local Open Scope R_scope.

Lemma exact_decimal_parts (a b : N) (k : nat) :
  num_of_decimal (a * 10 ^ N.of_nat k + b)%N k =
  IZR (Z.of_N a) + IZR (Z.of_N b) / 10 ^ k.
Proof.
  cbn [num_of_decimal Exact.number].
  rewrite N2Z.inj_add, N2Z.inj_mul, N2Z.inj_pow, nat_N_Z.
  rewrite plus_IZR, mult_IZR. change (Z.of_N 10) with 10%Z.
  rewrite <- pow_IZR.
  assert (Hk : 10 ^ k <> 0) by (apply pow_nonzero; lra).
  field. exact Hk.
Qed.

Lemma exact_decimal_whole (a : N) : num_of_decimal a 0 = IZR (Z.of_N a).
Proof. cbn [num_of_decimal Exact.number]. simpl. field. Qed.

End ExactDecimals.

(** C8.  The parsing step of the density estimator returns the value of the
    first text in the reply that the pattern matches (no match begins
    earlier, and none that begins there is longer), read as a decimal: the
    match is digits, or digits, a point and digits, a character is a digit
    exactly when it writes one of 0 to 9, and the value is the number the
    digits before the point write plus the number the digits after it write
    over the power of ten of their count (in exact arithmetic that very
    number, in another arithmetic its literal for it).  It returns 1.0 when
    the reply holds no such text; and the estimator returns this number
    whatever the reply says.  In particular
    "The density is about 0.95 g/ml." gives 0.95 and
    "I cannot estimate this." gives 1.0. *)
Theorem density_is_first_number_or_one :
  (forall (num : Type) (Hnum : JsNumber num),
      (forall text m,
          Server.match_number text = Some m ->
          Server.parse_density text = Server.parseFloat m
          /\ exists before after,
               text = (before ++ m ++ after)%string
               /\ numeric_literal m
               /\ forall before' m' after',
                    text = (before' ++ m' ++ after')%string ->
                    numeric_literal m' ->
                    String.length before <= String.length before'
                    /\ (String.length before' = String.length before ->
                        String.length m' <= String.length m))
      /\ (forall text,
            (exists before m after,
                text = (before ++ m ++ after)%string /\ numeric_literal m) ->
            exists m, Server.match_number text = Some m)
      /\ (forall text,
            ~ (exists before m after,
                  text = (before ++ m ++ after)%string /\ numeric_literal m) ->
            Server.parse_density text = num_of_decimal 10 1)
      /\ (forall int,
            all_digits int ->
            Server.parseFloat int = num_of_decimal (decimal_number int) 0)
      /\ (forall int frac,
            all_digits int -> all_digits frac ->
            Server.parseFloat (int ++ String "." frac) =
            num_of_decimal
              (decimal_number int * 10 ^ N.of_nat (String.length frac)
               + decimal_number frac)%N
              (String.length frac))
      /\ Server.parse_density "The density is about 0.95 g/ml." = num_of_decimal 95 2
      /\ Server.parse_density "I cannot estimate this." = num_of_decimal 10 1
      /\ (forall (openai : Server.completion num) foodName out,
            openai foodName = Some out ->
            Server.getDensityEstimateFromOpenAI openai foodName =
            Return (Server.parse_density out)))
  /\ (forall c, Server.is_digit c = true <-> exists d, digit_of c = Some d)
  /\ (forall int,
        all_digits int ->
        Server.parseFloat (num := R) int = IZR (Z.of_N (decimal_number int)))
  /\ (forall int frac,
        all_digits int -> all_digits frac ->
        Server.parseFloat (num := R) (int ++ String "." frac) =
        (IZR (Z.of_N (decimal_number int))
         + IZR (Z.of_N (decimal_number frac)) / 10 ^ String.length frac)%R)
  /\ Server.parse_density (num := R) "The density is about 0.95 g/ml." = (95 / 100)%R
  /\ Server.parse_density (num := R) "I cannot estimate this." = 1%R.
Proof.
  split; [|split; [|split; [|split; [|split]]]].
  - intros num Hnum.
    split; [|split; [|split; [|split; [|split; [|split; [|split]]]]]].
    + intros text m Hm.
      split; [unfold Server.parse_density; rewrite Hm; reflexivity|].
      destruct (match_number_some _ Hm) as (before & after & -> & Hb & Hlit & _).
      exists before, after. split; [reflexivity|]. split; [exact Hlit|].
      intros before' m' after' E Hlit'.
      destruct (numeric_literal_head Hlit') as (d & rest' & -> & Hd).
      assert (Hle : String.length before <= String.length before')
        by (eapply no_digit_before; eassumption).
      split; [exact Hle|]. intros L.
      destruct (append_same_length _ _ _ _ E (eq_sym L)) as [<- E'].
      rewrite match_number_skip in Hm by exact Hb.
      destruct (numeric_literal_head Hlit) as (c & rest & -> & Hc).
      cbn [append] in Hm, E'.
      eapply match_number_longest; eassumption.
    + intros text (before & m & after & -> & Hlit).
      destruct (Server.match_number (before ++ m ++ after)) as [m'|] eqn:E;
        [exists m'; reflexivity|].
      apply match_number_none in E. destruct (literal_has_digit _ _ Hlit E).
    + intros text Hno. unfold Server.parse_density.
      destruct (Server.match_number text) as [m|] eqn:E; [|reflexivity].
      exfalso. apply Hno.
      destruct (match_number_some _ E) as (before & after & -> & _ & Hlit & _).
      exists before, m, after. split; [reflexivity | exact Hlit].
    + intros int Hint.
      rewrite (@parseFloat_integer _ _ int Hint), (@digits_value_whole int Hint). reflexivity.
    + intros int frac Hint Hfrac.
      rewrite (@parseFloat_decimal _ _ int frac Hint Hfrac),
        (@digits_value_parts int frac Hint Hfrac).
      reflexivity.
    + reflexivity.
    + reflexivity.
    + intros openai foodName out Hout. unfold Server.getDensityEstimateFromOpenAI.
      rewrite Hout. reflexivity.
  - exact is_digit_rule.
  - intros int Hint.
    rewrite (@parseFloat_integer _ _ int Hint), (@digits_value_whole int Hint).
    apply exact_decimal_whole.
  - intros int frac Hint Hfrac.
    rewrite (@parseFloat_decimal _ _ int frac Hint Hfrac),
        (@digits_value_parts int frac Hint Hfrac).
    apply exact_decimal_parts.
  - change (Server.parse_density (num := R) "The density is about 0.95 g/ml.")
      with (IZR 95 / 10 ^ 2)%R.
    lra.
  - change (Server.parse_density (num := R) "I cannot estimate this.")
      with (IZR 10 / 10 ^ 1)%R.
    lra.
Qed.

Lemma density_is_first_number_or_one_witness :
  Server.match_number "The density is about 0.95 g/ml." = Some "0.95"%string
  /\ Server.parse_density "The density is about 0.95 g/ml." = 0.95%float
  /\ Server.parse_density "I cannot estimate this." = 1%float
  /\ Server.parseFloat "0.95" = (0 + 95 / 10 ^ 2)%R
  /\ Server.parseFloat "12.5" = (12 + 5 / 10 ^ 1)%R.
Proof.
  assert (D0 : all_digits "0") by (split; [discriminate | repeat constructor]).
  assert (D95 : all_digits "95") by (split; [discriminate | repeat constructor]).
  assert (D12 : all_digits "12") by (split; [discriminate | repeat constructor]).
  assert (D5 : all_digits "5") by (split; [discriminate | repeat constructor]).
  split; [reflexivity|]. split; [|split; [|split]].
  - rewrite (proj1 (proj1 (proj1 density_is_first_number_or_one float _)
                      "The density is about 0.95 g/ml."%string "0.95"%string eq_refl)).
    vm_compute. reflexivity.
  - vm_compute. reflexivity.
  - exact (proj1 (proj2 (proj2 (proj2 density_is_first_number_or_one)))
             "0"%string "95"%string D0 D95).
  - exact (proj1 (proj2 (proj2 (proj2 density_is_first_number_or_one)))
             "12"%string "5"%string D12 D5).
Defined.

(** ** The portion arithmetic *)

(** C10.  With no options, the helper of [utils/portion.js] computes the
    plate area, the volume and, through [rawGramsForDensity], the unrounded
    grams that the arithmetic of [/api/estimate-portion] computes, for every
    pixel fraction and density and in any arithmetic. *)
Theorem helper_agrees_with_server :
  forall (num : Type) (N : JsNumber num) (pixelFraction density : num),
    Portion.plateAreaCm2
      (Portion.estimatePortionFromMaskFraction pixelFraction Portion.no_options)
    = Server.plateAreaCm2
    /\ Portion.estimatedVolumeMl
         (Portion.estimatePortionFromMaskFraction pixelFraction Portion.no_options)
       = Server.estimatedVolumeMl pixelFraction
    /\ Portion.rawGramsForDensity
         (Portion.estimatePortionFromMaskFraction pixelFraction Portion.no_options)
         density
       = Server.rawPortionGrams pixelFraction density.
Proof.
  intros num N pixelFraction density. repeat split.
Qed.

(** ** The handler of [/api/estimate-portion] *)

Section EstimatePortion.
Context {num : Type} `{JsNumber num}.
Import Server.

(** A request whose fraction does not pass the check is answered 400. *)
Lemma unchecked_fraction_rejected (openai : completion num) req :
  checked_fraction (pixelFraction req) = None ->
  exists text,
    estimate_portion openai req = {| code := 400; body := Failed (Message text) |}.
Proof.
  intros Hf. unfold estimate_portion. rewrite Hf.
  destruct (imageBase64 req) as [image|]; [|eexists; reflexivity].
  destruct (maskUrl req) as [mask|]; [|eexists; reflexivity].
  destruct (foodName req) as [name|]; [|eexists; reflexivity].
  destruct (_ || _); eexists; reflexivity.
Qed.

End EstimatePortion.

(** C5.  Whatever else the request holds and whatever the model would
    answer, a request whose [pixelFraction] is missing, is not a number, or
    is a number that is not above 0 or not at most 1, is answered with code
    400 and an error message: no estimate is computed, from the value sent
    or from any other.  This holds in any arithmetic (for a double, [NaN]
    fails both comparisons), and on the reals for every [x <= 0] and every
    [x > 1]. *)
Theorem invalid_fraction_rejected :
  (forall (num : Type) (N : JsNumber num) (openai : Server.completion num) req,
      (forall x, Server.pixelFraction req = Some (JNum x) ->
                 num_gtb x (num_of_decimal 0 0) = false
                 \/ num_leb x (num_of_decimal 1 0) = false) ->
      exists text,
        Server.estimate_portion openai req =
        {| Server.code := 400; Server.body := Server.Failed (Server.Message text) |})
  /\ (forall (openai : Server.completion R) req x,
        Server.pixelFraction req = Some (JNum x) ->
        (x <= 0 \/ 1 < x)%R ->
        exists text,
          Server.estimate_portion openai req =
          {| Server.code := 400; Server.body := Server.Failed (Server.Message text) |}).
Proof.
  assert (G : forall (num : Type) (N : JsNumber num) (openai : Server.completion num) req,
             (forall x, Server.pixelFraction req = Some (JNum x) ->
                        num_gtb x (num_of_decimal 0 0) = false
                        \/ num_leb x (num_of_decimal 1 0) = false) ->
             exists text,
               Server.estimate_portion openai req =
               {| Server.code := 400;
                  Server.body := Server.Failed (Server.Message text) |}).
  { intros num N openai req Hx. apply unchecked_fraction_rejected.
    unfold Server.checked_fraction.
    destruct (Server.pixelFraction req) as [[| | x | | |]|]; try reflexivity.
    destruct (Hx x eq_refl) as [E|E]; rewrite E; [reflexivity|].
    rewrite andb_false_r. reflexivity. }
  split; [exact G|].
  intros openai req x Hreq Hx. apply G. intros x' Hreq'.
  rewrite Hreq in Hreq'. injection Hreq' as <-.
  cbn [num_gtb num_leb num_of_decimal Exact.number].
  destruct Hx as [Hx|Hx].
  - left. destruct (Rgt_dec x (IZR (Z.of_N 0) / 10 ^ 0)) as [Hgt|]; [|reflexivity].
    simpl in Hgt. lra.
  - right. destruct (Rle_dec x (IZR (Z.of_N 1) / 10 ^ 0)) as [Hle|]; [|reflexivity].
    simpl in Hle. lra.
Qed.

Lemma invalid_fraction_rejected_witness :
  Forall
    (fun sent =>
       Server.estimate_portion Examples.answers_0_9 (Examples.with_fraction sent) =
       {| Server.code := 400;
          Server.body := Server.Failed (Server.Message Server.missing_pixelFraction) |})
    [Some (JNum 0%float); Some (JNum (-0.2)%float); Some (JNum 1.5%float);
     Some (JNum nan); Some (JStr "0.5"); Some JNull; None].
Proof.
  assert (W : forall sent,
             (forall x, sent = Some (JNum x) ->
                        num_gtb x (num_of_decimal 0 0) = false
                        \/ num_leb x (num_of_decimal 1 0) = false) ->
             Server.estimate_portion Examples.answers_0_9 (Examples.with_fraction sent) =
             {| Server.code := 400;
                Server.body := Server.Failed (Server.Message Server.missing_pixelFraction) |}).
  { intros sent Hsent.
    destruct (proj1 invalid_fraction_rejected float _ Examples.answers_0_9
                (Examples.with_fraction sent) Hsent) as [text E].
    rewrite E. revert E. unfold Server.estimate_portion, Examples.with_fraction.
    cbn [Server.imageBase64 Server.maskUrl Server.foodName Server.pixelFraction].
    change (negb (truthy (JStr Examples.photo : json float))) with false.
    cbn [orb negb truthy].
    destruct (Server.checked_fraction sent) as [f|]; [|intros [= <-]; reflexivity].
    destruct (negb (num_truthy f)); [intros [= <-]; reflexivity|].
    destruct (Server.getDensityEstimateFromOpenAI _ _); discriminate. }
  repeat constructor; apply W; intros x [= <-];
    first [left; vm_compute; reflexivity | right; vm_compute; reflexivity].
Defined.

Section AcceptedRequest.
Context {num : Type} `{JsNumber num}.
Import Server.

(** A request with its three fields and a fraction that passes the check is
    answered with the arithmetic of lines 338-348 and nothing else. *)
Lemma checked_fraction_accepted (openai : completion num) image mask name fraction out :
  truthy image = true -> truthy mask = true -> truthy name = true ->
  num_gtb fraction (num_of_decimal 0 0) = true ->
  num_leb fraction (num_of_decimal 1 0) = true ->
  num_truthy fraction = true ->
  openai name = Some out ->
  estimate_portion openai
    {| imageBase64 := Some image; maskUrl := Some mask; foodName := Some name;
       pixelFraction := Some (JNum fraction) |}
  = {| code := 200;
       body := Estimated
         {| report_foodName := name;
            report_pixelFraction := fraction;
            plateAssumptions :=
              {| plateDiameterCm := defaultPlateDiameterCm;
                 assumedHeightCm := defaultHeightCm;
                 plateAreaCm2_shown := num_toFixed 2 plateAreaCm2 |};
            estimatedVolumeMl_shown := num_toFixed 2 (estimatedVolumeMl fraction);
            density_g_per_ml := num_toFixed 2 (parse_density out);
            portionEstimate_g :=
              num_toFixed 1 (rawPortionGrams fraction (parse_density out)) |} |}.
Proof.
  intros Hi Hm Hn Hgt Hle Ht Hout.
  unfold estimate_portion, checked_fraction, getDensityEstimateFromOpenAI.
  cbn [imageBase64 maskUrl foodName pixelFraction].
  rewrite Hi, Hm, Hn, Hgt, Hle. cbn [andb orb negb].
  rewrite Ht, Hout. reflexivity.
Qed.

End AcceptedRequest.

Section ExactArithmetic.
Local Open Scope R_scope.

Lemma exact_plate_area : Server.plateAreaCm2 = PI * (25 / 2) ^ 2.
Proof.
  unfold Server.plateAreaCm2, Server.defaultPlateDiameterCm.
  cbn [num_mul num_PI num_sqr num_div num_of_decimal Exact.number].
  f_equal. f_equal. simpl. lra.
Qed.

Lemma exact_plate_area_pos : 0 < Server.plateAreaCm2.
Proof.
  rewrite exact_plate_area. apply Rmult_lt_0_compat; [exact PI_RGT_0 | lra].
Qed.

Lemma exact_volume f :
  Server.estimatedVolumeMl f = f * Server.plateAreaCm2 * 2.5.
Proof.
  unfold Server.estimatedVolumeMl, Server.defaultHeightCm.
  cbn [num_mul num_of_decimal Exact.number]. f_equal. simpl. lra.
Qed.

Lemma exact_grams f density :
  Server.rawPortionGrams f density = Server.estimatedVolumeMl f * density.
Proof. reflexivity. Qed.

Lemma exact_or_default (x dflt : R) :
  x <> 0 -> Portion.or_default (Some x) dflt = x.
Proof.
  intros Hx. unfold Portion.or_default. cbn [num_truthy Exact.number].
  destruct (Req_dec_T x 0); [contradiction | reflexivity].
Qed.

Lemma exact_or_default_missing (x : option R) (dflt : R) :
  x = None \/ x = Some 0 -> Portion.or_default x dflt = dflt.
Proof.
  intros [->| ->]; [reflexivity|]. unfold Portion.or_default.
  cbn [num_truthy Exact.number]. destruct (Req_dec_T 0 0); [reflexivity | contradiction].
Qed.

Lemma exact_or_default_nonzero (x : option R) (dflt : R) :
  dflt <> 0 -> Portion.or_default x dflt <> 0.
Proof.
  intros Hd. unfold Portion.or_default. destruct x as [x|]; [|exact Hd].
  cbn [num_truthy Exact.number]. destruct (Req_dec_T x 0); assumption.
Qed.

Lemma exact_literal_25 : num_of_decimal 25 0 = 25.
Proof. cbn [num_of_decimal Exact.number]. simpl. lra. Qed.

Lemma exact_literal_2_5 : num_of_decimal 25 1 = 2.5.
Proof. cbn [num_of_decimal Exact.number]. simpl. lra. Qed.

Lemma exact_helper (opts : Portion.options R) f :
  let d := Portion.or_default (Portion.plateDiameterCm opts) 25 in
  let h := Portion.or_default (Portion.heightCm opts) 2.5 in
  let e := Portion.estimatePortionFromMaskFraction f opts in
  Portion.plateAreaCm2 e = PI * (d / 2) ^ 2
  /\ Portion.estimatedVolumeMl e = f * Portion.plateAreaCm2 e * h
  /\ forall density,
       Portion.rawGramsForDensity e density = Portion.estimatedVolumeMl e * density.
Proof.
  unfold Portion.estimatePortionFromMaskFraction.
  cbn [Portion.plateAreaCm2 Portion.estimatedVolumeMl Portion.rawGramsForDensity].
  rewrite exact_literal_25, exact_literal_2_5.
  split; [|split; reflexivity].
  cbn [num_mul num_PI num_sqr num_div num_of_decimal Exact.number].
  f_equal. f_equal. simpl. lra.
Qed.

Lemma square_pos (x : R) : x <> 0 -> 0 < x ^ 2.
Proof.
  intros Hx. replace (x ^ 2) with (x * x) by (simpl; ring).
  destruct (Rtotal_order x 0) as [Hneg|[Hz|Hpos]]; [|contradiction|].
  - replace (x * x) with ((- x) * (- x)) by ring. apply Rmult_lt_0_compat; lra.
  - apply Rmult_lt_0_compat; lra.
Qed.

End ExactArithmetic.

Section PortionClaims.
Local Open Scope R_scope.

(** C4 (amended).  In any arithmetic, that of doubles included, the grams
    are the product, taken in this order, of the pixel fraction, the plate
    area [PI * (d/2)^2], the height and the density, and of nothing else.  In
    exact arithmetic, for a plate of diameter [d] and height [h]:
    the plate area is [PI * (d/2)^2], the volume is the pixel fraction times
    the plate area times [h], the grams are the volume times the density,
    that is [pixelFraction * PI * (d/2)^2 * h * density], and nothing else
    enters; and for pixel fractions in (0, 1] and densities above 0 the grams
    are strictly increasing in the pixel fraction and in the density.  This
    holds for the handler of [/api/estimate-portion], whose plate is 25 cm by
    2.5 cm and which shows these values rounded, and for the helper of
    [utils/portion.js] on the plate its options give (an option that is
    missing or 0 is the default 25 or 2.5), where the order is stated for a
    height above 0 only.  The rounded products of doubles are not in strict
    order: two pixel fractions next to each other just above 0.3 give the
    same grams at density 0.9. *)
Theorem grams_exact_and_increasing :
  (forall (num : Type) (N : JsNumber num) (f density : num),
      Server.rawPortionGrams f density =
      num_mul
        (num_mul
           (num_mul f
              (num_mul num_PI
                 (num_sqr (num_div (num_of_decimal 25 0) (num_of_decimal 20 1)))))
           (num_of_decimal 25 1))
        density)
  /\ (Server.plateAreaCm2 = PI * (25 / 2) ^ 2
   /\ forall f density,
        Server.estimatedVolumeMl f = f * Server.plateAreaCm2 * 2.5
        /\ Server.rawPortionGrams f density = Server.estimatedVolumeMl f * density
        /\ Server.rawPortionGrams f density = f * (PI * (25 / 2) ^ 2) * 2.5 * density)
  /\ (forall f1 f2 density,
        0 < f1 -> f1 < f2 -> f2 <= 1 -> 0 < density ->
        Server.rawPortionGrams f1 density < Server.rawPortionGrams f2 density)
  /\ (forall f density1 density2,
        0 < f -> f <= 1 -> 0 < density1 -> density1 < density2 ->
        Server.rawPortionGrams f density1 < Server.rawPortionGrams f density2)
  /\ (forall (openai : Server.completion R) image mask name f out,
        truthy image = true -> truthy mask = true -> truthy name = true ->
        0 < f -> f <= 1 ->
        openai name = Some out ->
        exists report,
          Server.estimate_portion openai
            {| Server.imageBase64 := Some image; Server.maskUrl := Some mask;
               Server.foodName := Some name;
               Server.pixelFraction := Some (JNum f) |}
          = {| Server.code := 200; Server.body := Server.Estimated report |}
          /\ Server.estimatedVolumeMl_shown report =
             Exact.toFixed 2 (Server.estimatedVolumeMl f)
          /\ Server.portionEstimate_g report =
             Exact.toFixed 1 (Server.rawPortionGrams f (Server.parse_density out)))
  /\ (forall opts : Portion.options R,
        let d := Portion.or_default (Portion.plateDiameterCm opts) 25 in
        let h := Portion.or_default (Portion.heightCm opts) 2.5 in
        let estimate f := Portion.estimatePortionFromMaskFraction f opts in
        let grams f density := Portion.rawGramsForDensity (estimate f) density in
        (forall f density,
            Portion.plateAreaCm2 (estimate f) = PI * (d / 2) ^ 2
            /\ Portion.estimatedVolumeMl (estimate f) =
               f * Portion.plateAreaCm2 (estimate f) * h
            /\ grams f density = Portion.estimatedVolumeMl (estimate f) * density
            /\ grams f density = f * (PI * (d / 2) ^ 2) * h * density)
        /\ (0 < h ->
            (forall f1 f2 density,
                0 < f1 -> f1 < f2 -> f2 <= 1 -> 0 < density ->
                grams f1 density < grams f2 density)
            /\ (forall f density1 density2,
                  0 < f -> f <= 1 -> 0 < density1 -> density1 < density2 ->
                  grams f density1 < grams f density2)))
  /\ (forall (x : option R) dflt,
        (x = None \/ x = Some 0 -> Portion.or_default x dflt = dflt)
        /\ (forall v, x = Some v -> v <> 0 -> Portion.or_default x dflt = v))
  /\ (forall (num : Type) (N : JsNumber num) (opts : Portion.options num)
             (f density : num),
        Portion.rawGramsForDensity
          (Portion.estimatePortionFromMaskFraction f opts) density =
        num_mul
          (num_mul
             (num_mul f
                (num_mul num_PI
                   (num_sqr
                      (num_div
                         (Portion.or_default (Portion.plateDiameterCm opts)
                            (num_of_decimal 25 0))
                         (num_of_decimal 20 1)))))
             (Portion.or_default (Portion.heightCm opts) (num_of_decimal 25 1)))
          density)
  /\ (PrimFloat.ltb 0 0x1.333333333333fp-2 = true
      /\ PrimFloat.ltb 0x1.333333333333fp-2 0x1.3333333333340p-2 = true
      /\ PrimFloat.leb 0x1.3333333333340p-2 1 = true
      /\ PrimFloat.ltb
           (Server.rawPortionGrams 0x1.333333333333fp-2%float 0.9%float)
           (Server.rawPortionGrams 0x1.3333333333340p-2%float 0.9%float) = false).
Proof.
  pose proof exact_plate_area_pos as Harea.
  assert (Hgrams : forall f density,
             Server.rawPortionGrams f density = f * Server.plateAreaCm2 * 2.5 * density).
  { intros f density. rewrite exact_grams, exact_volume. reflexivity. }
  split; [reflexivity|].
  split; [|split; [|split; [|split; [|split]]]].
  - split; [exact exact_plate_area|]. intros f density.
    split; [exact (exact_volume f)|]. split; [reflexivity|].
    rewrite Hgrams, exact_plate_area. reflexivity.
  - intros f1 f2 density Hf1 Hlt Hf2 Hd. rewrite !Hgrams.
    apply Rmult_lt_compat_r; [exact Hd|].
    apply Rmult_lt_compat_r; [lra|].
    apply Rmult_lt_compat_r; [exact Harea | exact Hlt].
  - intros f density1 density2 Hf0 Hf1 Hd Hlt. rewrite !Hgrams.
    apply Rmult_lt_compat_l; [|exact Hlt].
    apply Rmult_lt_0_compat; [|lra].
    apply Rmult_lt_0_compat; [exact Hf0 | exact Harea].
  - intros openai image mask name f out Hi Hm Hn Hf0 Hf1 Hout.
    assert (Hgt : num_gtb f (num_of_decimal 0 0) = true).
    { cbn [num_gtb num_of_decimal Exact.number].
      destruct (Rgt_dec f (IZR (Z.of_N 0) / 10 ^ 0)) as [|Hn']; [reflexivity|].
      exfalso. apply Hn'. simpl. lra. }
    assert (Hle : num_leb f (num_of_decimal 1 0) = true).
    { cbn [num_leb num_of_decimal Exact.number].
      destruct (Rle_dec f (IZR (Z.of_N 1) / 10 ^ 0)) as [|Hn']; [reflexivity|].
      exfalso. apply Hn'. simpl. lra. }
    assert (Ht : num_truthy f = true).
    { cbn [num_truthy Exact.number]. destruct (Req_dec_T f 0); [lra | reflexivity]. }
    eexists. split; [apply checked_fraction_accepted with (out := out); assumption|].
    split; reflexivity.
  - intros opts d h estimate grams.
    assert (Hg : forall f density, grams f density = f * (PI * (d / 2) ^ 2) * h * density).
    { intros f density. unfold grams, estimate.
      destruct (exact_helper opts f) as (Ha & Hv & Hr).
      rewrite Hr, Hv, Ha. reflexivity. }
    assert (Hplate : 0 < PI * (d / 2) ^ 2).
    { apply Rmult_lt_0_compat; [exact PI_RGT_0|]. apply square_pos.
      assert (Hd : d <> 0) by (apply exact_or_default_nonzero; lra). lra. }
    split.
    { intros f density. destruct (exact_helper opts f) as (Ha & Hv & Hr).
      split; [exact Ha|]. split; [exact Hv|]. split; [apply Hr | apply Hg]. }
    intros Hpos. split.
    + intros f1 f2 density Hf1 Hlt Hf2 Hdn. rewrite !Hg.
      apply Rmult_lt_compat_r; [exact Hdn|].
      apply Rmult_lt_compat_r; [exact Hpos|].
      apply Rmult_lt_compat_r; [exact Hplate | exact Hlt].
    + intros f density1 density2 Hf0 Hf1 Hdn Hlt. rewrite !Hg.
      apply Rmult_lt_compat_l; [|exact Hlt].
      apply Rmult_lt_0_compat; [|exact Hpos].
      apply Rmult_lt_0_compat; [exact Hf0 | exact Hplate].
  - split; [|split; [reflexivity | repeat split; vm_compute; reflexivity]].
    intros x dflt. split; [apply exact_or_default_missing|].
    intros v -> Hv. apply exact_or_default, Hv.
Qed.

End PortionClaims.

Lemma grams_exact_and_increasing_witness :
  (Server.rawPortionGrams (3 / 10) (9 / 10) < Server.rawPortionGrams (6 / 10) (9 / 10))%R
  /\ (Server.rawPortionGrams (3 / 10) (9 / 10) < Server.rawPortionGrams (3 / 10) 1)%R
  /\ (Portion.rawGramsForDensity
        (Portion.estimatePortionFromMaskFraction (3 / 10)
           {| Portion.plateDiameterCm := Some 20; Portion.heightCm := Some 3 |})
        (9 / 10)
      < Portion.rawGramsForDensity
          (Portion.estimatePortionFromMaskFraction (6 / 10)
             {| Portion.plateDiameterCm := Some 20; Portion.heightCm := Some 3 |})
          (9 / 10))%R.
Proof.
  destruct grams_exact_and_increasing as (_ & _ & Hfraction & Hdensity & _ & Hhelper & _).
  split; [|split].
  - apply Hfraction; lra.
  - apply Hdensity; lra.
  - apply (Hhelper {| Portion.plateDiameterCm := Some 20%R;
                      Portion.heightCm := Some 3%R |}).
    + cbn [Portion.heightCm Portion.or_default num_truthy Exact.number].
      destruct (Req_dec_T 3 0); lra.
    + lra.
    + lra.
    + lra.
    + lra.
Defined.

(** C4, as stated: on doubles the grams are not strictly increasing.  The
    pixel fractions [0x1.333333333333fp-2] and [0x1.3333333333340p-2], next
    to each other just above 0.3, give the same grams at density 0.9, in the
    handler and in the helper alike; so do the densities
    [0x1.cccccccccccccp-1] and [0x1.ccccccccccccdp-1] at pixel fraction 0.3.
    And the helper, even in exact arithmetic, gives fewer grams for the
    larger pixel fraction when its option [heightCm] is -1. *)
Lemma grams_not_strictly_increasing :
  (PrimFloat.ltb 0 0x1.333333333333fp-2 = true
   /\ PrimFloat.ltb 0x1.333333333333fp-2 0x1.3333333333340p-2 = true
   /\ PrimFloat.leb 0x1.3333333333340p-2 1 = true
   /\ PrimFloat.ltb 0 0.9 = true
   /\ Server.rawPortionGrams 0x1.333333333333fp-2%float 0.9%float =
      Server.rawPortionGrams 0x1.3333333333340p-2%float 0.9%float
   /\ Portion.rawGramsForDensity
        (Portion.estimatePortionFromMaskFraction 0x1.333333333333fp-2%float
           Portion.no_options) 0.9%float =
      Portion.rawGramsForDensity
        (Portion.estimatePortionFromMaskFraction 0x1.3333333333340p-2%float
           Portion.no_options) 0.9%float)
  /\ (PrimFloat.ltb 0 0x1.cccccccccccccp-1 = true
      /\ PrimFloat.ltb 0x1.cccccccccccccp-1 0x1.ccccccccccccdp-1 = true
      /\ Server.rawPortionGrams 0.3%float 0x1.cccccccccccccp-1%float =
         Server.rawPortionGrams 0.3%float 0x1.ccccccccccccdp-1%float)
  /\ (Portion.rawGramsForDensity
        (Portion.estimatePortionFromMaskFraction (6 / 10)
           {| Portion.plateDiameterCm := None; Portion.heightCm := Some (-1) |})
        (9 / 10)
      < Portion.rawGramsForDensity
          (Portion.estimatePortionFromMaskFraction (3 / 10)
             {| Portion.plateDiameterCm := None; Portion.heightCm := Some (-1) |})
          (9 / 10))%R.
Proof.
  split; [|split].
  - repeat split; vm_compute; reflexivity.
  - repeat split; vm_compute; reflexivity.
  - set (opts := {| Portion.plateDiameterCm := None; Portion.heightCm := Some (-1)%R |}).
    destruct (exact_helper opts (6 / 10)) as (Ha6 & Hv6 & Hr6).
    destruct (exact_helper opts (3 / 10)) as (Ha3 & Hv3 & Hr3).
    rewrite Hr6, Hr3, Hv6, Hv3, Ha6, Ha3.
    subst opts. cbn [Portion.plateDiameterCm Portion.heightCm].
    rewrite (exact_or_default_missing (x := None)) by (left; reflexivity).
    rewrite exact_or_default by lra.
    assert (Hplate : (0 < PI * (25 / 2) ^ 2)%R).
    { apply Rmult_lt_0_compat; [exact PI_RGT_0|]. apply square_pos. lra. }
    nra.
Qed.

(** C2 (amended).  For [foodName = "rice"], [pixelFraction = 0.30], a model
    reply of 0.9 and the plate of the handler (25 cm by 2.5 cm), the handler
    of [/api/estimate-portion], run on doubles, answers with
    [plateAreaCm2 = 490.87], [estimatedVolumeMl = 368.16] (0.30 times the
    area times the height 2.5), [density_g_per_ml = 0.9] and
    [portionEstimate_g = 331.3]. *)
Theorem rice_scenario :
  Server.estimate_portion Examples.answers_0_9 Examples.rice_request =
  {| Server.code := 200;
     Server.body := Server.Estimated
       {| Server.report_foodName := JStr "rice";
          Server.report_pixelFraction := 0.3%float;
          Server.plateAssumptions :=
            {| Server.plateDiameterCm := 25%float;
               Server.assumedHeightCm := 2.5%float;
               Server.plateAreaCm2_shown := 490.87%float |};
          Server.estimatedVolumeMl_shown := 368.16%float;
          Server.density_g_per_ml := 0.9%float;
          Server.portionEstimate_g := 331.3%float |} |}.
Proof. vm_compute. reflexivity. Qed.

(** C2, as stated: the volume the handler answers in this scenario is not
    147.26 and the grams are not 132.5. *)
Lemma rice_scenario_not_as_stated :
  exists report,
    Server.body (Server.estimate_portion Examples.answers_0_9 Examples.rice_request)
    = Server.Estimated report
    /\ Server.plateAreaCm2_shown (Server.plateAssumptions report) = 490.87%float
    /\ Server.estimatedVolumeMl_shown report <> 147.26%float
    /\ Server.portionEstimate_g report <> 132.5%float.
Proof.
  eexists. split; [vm_compute; reflexivity|]. cbn.
  split; [reflexivity|].
  split; intros E; apply (f_equal Prim2SF) in E; vm_compute in E; discriminate.
Qed.

(* ================================================================== *)
(** * Part III. Further properties of the code                         *)
(* ================================================================== *)

(** ** Number literals at the edge of the doubles *)

(** A literal is rounded once, also where the doubles are subnormal:
    1.236e-323 lies above the midpoint of [2 * 2^-1074] and [3 * 2^-1074]
    and reads as the latter, 2.4e-324 reads as 0 and 2.5e-324 as the
    smallest double, and 2e308 reads as infinity. *)
Lemma literals_rounded_once :
  num_of_decimal 1236 326 = 0x3p-1074%float
  /\ num_of_decimal 24 325 = 0%float
  /\ num_of_decimal 25 325 = 0x1p-1074%float
  /\ num_of_decimal 22250738585072014 324 = 0x1p-1022%float
  /\ num_of_decimal (2 * 10 ^ 308) 0 = infinity.
Proof. repeat split; vm_compute; reflexivity. Qed.

(** ** [runModelVersion]: configuration, first final answer, results *)

Section Invoker.
Context {num : Type} `{JsNumber num}.
Import ReplicateSeg.

Lemma poll_loop_past_configuration (svc : service num) remaining :
  forall tries prediction,
    past_configuration (snd (poll_loop svc remaining tries prediction)).
Proof.
  induction remaining as [|remaining IH]; intros tries prediction; simpl.
  - destruct prediction; simpl; try destruct (pending _); split; discriminate.
  - destruct (status_of prediction) as [status|e] eqn:Es.
    + destruct (pending status); [|split; discriminate].
      destruct (poll svc tries) as [data|]; [|split; discriminate].
      specialize (IH (S tries) data).
      destruct (poll_loop svc remaining (S tries) data). exact IH.
    + destruct prediction; simpl in Es; try discriminate.
      injection Es as <-. split; discriminate.
Qed.

Lemma finish_past_configuration (prediction : json num) :
  past_configuration (finish prediction).
Proof.
  unfold finish. destruct prediction; simpl;
    try destruct (status_is _ _); split; discriminate.
Qed.

Lemma bind_finish_past_configuration (r : outcome (error num) (json num)) :
  past_configuration r -> past_configuration (prediction <- r ;; finish prediction).
Proof.
  destruct r as [p|e]; simpl; [intros _; apply finish_past_configuration|].
  intros [H1 H2]. split; intros E; injection E as ->; [apply H1 | apply H2]; reflexivity.
Qed.

(** X1.  [runModelVersion] sends no request without its configuration: it
    throws the token error exactly when the token is unset or empty, the
    model-version error exactly when the token is set and the version is
    not, and in these two cases, and only in them, it has done nothing. *)
Theorem no_request_without_configuration :
  forall env (svc : service num) dataUrl,
    (snd (runModelVersion env svc dataUrl) = Throw MissingToken
     <-> is_set (REPLICATE_API_TOKEN env) = false)
    /\ (snd (runModelVersion env svc dataUrl) = Throw MissingModelVersion
        <-> is_set (REPLICATE_API_TOKEN env) = true
            /\ is_set (REPLICATE_MODEL_VERSION env) = false)
    /\ (fst (runModelVersion env svc dataUrl) = []
        <-> is_set (REPLICATE_API_TOKEN env) = false
            \/ is_set (REPLICATE_MODEL_VERSION env) = false).
Proof.
  intros env svc dataUrl. unfold runModelVersion.
  destruct (is_set (REPLICATE_API_TOKEN env)); cbn [negb].
  2:{ repeat split; auto; try discriminate. intros [? ?]; discriminate. }
  destruct (REPLICATE_MODEL_VERSION env) as [version|]; cbn [is_set].
  2:{ repeat split; auto; try discriminate. }
  destruct (String.eqb version EmptyString); cbn [negb].
  1:{ repeat split; auto; try discriminate. }
  assert (Hrun : forall (events : list event) (r : outcome (error num) (segResult num)),
             past_configuration r ->
             (r = Throw MissingToken <-> true = false)
             /\ (r = Throw MissingModelVersion <-> true = true /\ true = false)
             /\ (Post :: events = [] <-> true = false \/ true = false)).
  { intros events r [H1 H2]. repeat split; try discriminate; try contradiction.
    - intros [_ ?]; discriminate.
    - intros [?|?]; discriminate. }
  destruct (create svc version dataUrl) as [data|].
  2:{ cbn [fst snd]. apply (Hrun []). split; discriminate. }
  destruct (truthy_opt (predictionUrl data)).
  - pose proof (poll_loop_past_configuration svc poll_cap 0 data) as Hp.
    destruct (poll_loop svc poll_cap 0 data) as [events r]. cbn [fst snd] in *.
    apply Hrun, bind_finish_past_configuration, Hp.
  - cbn [fst snd bind]. apply Hrun, finish_past_configuration.
Qed.

(** The loop up to the first poll that is rejected or whose answer is not
    pending. *)
Lemma poll_loop_first_final (svc : service num) k :
  forall remaining tries prediction,
    is_pending prediction = true ->
    (forall n, n < k ->
       exists data, poll svc (tries + n) = Some data /\ is_pending data = true) ->
    k < remaining ->
    match poll svc (tries + k) with
    | Some answer => is_pending answer = false
    | None => True
    end ->
    poll_loop svc remaining tries prediction =
    (poll_events (S k),
     match poll svc (tries + k) with
     | Some answer => _ <- status_of answer ;; Return answer
     | None => Throw RequestFailed
     end).
Proof.
  induction k as [|k IH]; intros remaining tries prediction Hp Hbefore Hk Hfinal;
    (destruct remaining as [|remaining]; [lia|]);
    unfold is_pending in Hp; cbn [poll_loop];
    (destruct (status_of prediction) as [status|e]; [|discriminate]); rewrite Hp.
  - rewrite Nat.add_0_r in *.
    destruct (poll svc tries) as [answer|]; [|reflexivity].
    unfold is_pending in Hfinal.
    destruct remaining as [|remaining]; cbn [poll_loop];
      destruct (status_of answer) as [st|e]; cbn [bind]; try reflexivity;
      rewrite Hfinal; reflexivity.
  - destruct (Hbefore 0 ltac:(lia)) as (data & Hpoll & Hdata).
    rewrite Nat.add_0_r in Hpoll. rewrite Hpoll.
    rewrite (IH remaining (S tries) data Hdata).
    + rewrite <- Nat.add_succ_comm. reflexivity.
    + intros n Hn. destruct (Hbefore (S n) ltac:(lia)) as (d & Hd & Hpd).
      exists d. rewrite <- Nat.add_succ_comm in Hd. split; assumption.
    + lia.
    + rewrite Nat.add_succ_comm. exact Hfinal.
Qed.

End Invoker.

Section InvokerResults.
Context {num : Type} `{JsNumber num}.
Import ReplicateSeg.

Lemma finish_after_status (answer : json num) :
  (prediction <- (_ <- status_of answer ;; Return answer) ;; finish prediction)
  = finish answer.
Proof.
  unfold finish. destruct (status_of answer) as [status|e] eqn:E; cbn [bind];
    [rewrite E|]; reflexivity.
Qed.

Lemma runModelVersion_polling env (svc : service num) dataUrl version data :
  configured env version ->
  create svc version dataUrl = Some data ->
  truthy_opt (predictionUrl data) = true ->
  runModelVersion env svc dataUrl =
  (Post :: fst (poll_loop svc poll_cap 0 data),
   prediction <- snd (poll_loop svc poll_cap 0 data) ;; finish prediction).
Proof.
  intros (Htoken & Hversion & Hne) Hcreate Hurl. unfold runModelVersion.
  rewrite Htoken, Hversion. cbn [negb].
  apply String.eqb_neq in Hne. rewrite Hne, Hcreate, Hurl.
  destruct (poll_loop svc poll_cap 0 data). reflexivity.
Qed.

(** X2.  Polling stops at the first answer whose status is outside the
    pending set: when the [k] polls before it are answered [starting] or
    [processing] and it comes within the cap, the call has made [k + 1]
    polls, one second apart, and ends as that answer decides (an error if it
    is [failed] or [null], else a result with the mask found in its
    output). *)
Theorem polling_stops_at_first_final_answer :
  forall env (svc : service num) dataUrl version data k answer,
    configured env version ->
    create svc version dataUrl = Some data ->
    truthy_opt (predictionUrl data) = true ->
    is_pending data = true ->
    pending_until svc k ->
    k < poll_cap ->
    poll svc k = Some answer ->
    is_pending answer = false ->
    runModelVersion env svc dataUrl = (Post :: poll_events (S k), finish answer).
Proof.
  intros env svc dataUrl version data k answer Hc Hcreate Hurl Hdata Hbefore Hk Hpoll Hfinal.
  erewrite runModelVersion_polling by eassumption.
  rewrite (@poll_loop_first_final _ svc k poll_cap 0 data Hdata);
    cbn [Nat.add]; try rewrite Hpoll; try assumption.
  cbn [fst snd]. rewrite finish_after_status. reflexivity.
Qed.

(** X3.  A rejected request ends the call with that failure: the creation
    request at once, and a poll after the polls before it, with no further
    request. *)
Theorem rejected_request_ends_the_call :
  forall env (svc : service num) dataUrl version,
    configured env version ->
    (create svc version dataUrl = None ->
     runModelVersion env svc dataUrl = ([Post], Throw RequestFailed))
    /\ (forall data k,
          create svc version dataUrl = Some data ->
          truthy_opt (predictionUrl data) = true ->
          is_pending data = true ->
          pending_until svc k ->
          k < poll_cap ->
          poll svc k = None ->
          runModelVersion env svc dataUrl =
          (Post :: poll_events (S k), Throw RequestFailed)).
Proof.
  intros env svc dataUrl version Hc. split.
  - intros Hcreate. destruct Hc as (Htoken & Hversion & Hne).
    unfold runModelVersion. rewrite Htoken, Hversion. cbn [negb].
    apply String.eqb_neq in Hne. rewrite Hne, Hcreate. reflexivity.
  - intros data k Hcreate Hurl Hdata Hbefore Hk Hpoll.
    erewrite runModelVersion_polling by eassumption.
    rewrite (@poll_loop_first_final _ svc k poll_cap 0 data Hdata);
      cbn [Nat.add]; try rewrite Hpoll; try assumption; try exact I.
    reflexivity.
Qed.

Lemma finish_checked (prediction : json num) : checked (finish prediction).
Proof.
  unfold finish. destruct (status_of prediction) as [status|e] eqn:Es; cbn [bind].
  - destruct (status_is status "failed") eqn:Ef; cbn [checked].
    + exists status. split; [exact Es | exact Ef].
    + cbn [ReplicateSeg.prediction ReplicateSeg.maskUrl].
      split; [exists status; split; [exact Es | exact Ef]|].
      split; [reflexivity|]. intros mask Hm.
      destruct (prop_of prediction "output") as [out|]; cbn in Hm; [|discriminate].
      apply findMaskUrl_sound in Hm. destruct Hm as [Hin Hok].
      split; [apply is_mask_string_rule, Hok|]. split; [exact Hin|].
      apply is_mask_string_nonempty, Hok.
  - destruct prediction; simpl in Es; try discriminate.
    injection Es as <-. exact I.
Qed.

Lemma poll_loop_throws (svc : service num) remaining :
  forall tries prediction e,
    snd (poll_loop svc remaining tries prediction) = Throw e ->
    e = TypeError \/ e = RequestFailed.
Proof.
  induction remaining as [|remaining IH]; intros tries prediction e; cbn [poll_loop].
  - destruct prediction; simpl; try destruct (pending _); try discriminate.
    intros [= <-]. left. reflexivity.
  - destruct (status_of prediction) as [status|e'] eqn:Es.
    + destruct (pending status); [|discriminate].
      destruct (poll svc tries) as [data|]; [|intros [= <-]; right; reflexivity].
      specialize (IH (S tries) data e).
      destruct (poll_loop svc remaining (S tries) data). exact IH.
    + destruct prediction; simpl in Es; try discriminate.
      injection Es as <-. intros [= <-]. left. reflexivity.
Qed.

Lemma runModelVersion_checked :
  forall env (svc : service num) dataUrl,
    checked (snd (runModelVersion env svc dataUrl)).
Proof.
  intros env svc dataUrl. unfold runModelVersion.
  destruct (is_set (REPLICATE_API_TOKEN env)); cbn [negb snd]; [|exact I].
  destruct (REPLICATE_MODEL_VERSION env) as [version|]; [|exact I].
  destruct (String.eqb version EmptyString); [exact I|].
  destruct (create svc version dataUrl) as [data|]; [|exact I].
  destruct (truthy_opt (predictionUrl data)).
  - pose proof (poll_loop_throws svc poll_cap 0 data) as Hthrows.
    destruct (poll_loop svc poll_cap 0 data) as [events [p|e]]; cbn [snd bind] in *.
    + apply finish_checked.
    + destruct (Hthrows e eq_refl) as [->| ->]; exact I.
  - cbn [snd bind]. apply finish_checked.
Qed.

(** X4.  What [runModelVersion] returns is checked: a result never holds a
    prediction whose status is [failed]; its [maskUrl] is the mask found in
    the output of the prediction it holds, and when there is one it is a
    non-empty string of that output that begins with [http] or [data:]; and
    the failure that carries a prediction carries one whose status is
    [failed]. *)
Theorem result_is_checked :
  forall env (svc : service num) dataUrl,
    checked (snd (runModelVersion env svc dataUrl)).
Proof. exact runModelVersion_checked. Qed.


End InvokerResults.

Lemma polling_stops_at_first_final_answer_witness :
  ReplicateSeg.runModelVersion Examples.env MoreExamples.ready_at_third_poll
    (JStr Examples.photo)
  = (ReplicateSeg.Post :: poll_events 3,
     Return {| ReplicateSeg.prediction := MoreExamples.succeeded_with_mask;
               ReplicateSeg.maskUrl :=
                 Some "https://replicate.delivery/m1.png?sig=a.b"%string |}).
Proof.
  rewrite (@polling_stops_at_first_final_answer float _
             Examples.env MoreExamples.ready_at_third_poll (JStr Examples.photo)
             "yolov8-seg:1"%string Examples.starting 2
             MoreExamples.succeeded_with_mask).
  - reflexivity.
  - repeat split. discriminate.
  - reflexivity.
  - reflexivity.
  - reflexivity.
  - intros [|[|n]] Hn; [exists Examples.processing; split; reflexivity ..|].
    unfold lt in Hn. do 2 apply le_S_n in Hn. inversion Hn.
  - unfold ReplicateSeg.poll_cap. repeat constructor.
  - reflexivity.
  - reflexivity.
Defined.

Lemma rejected_request_ends_the_call_witness :
  ReplicateSeg.runModelVersion Examples.env MoreExamples.second_poll_rejected
    (JStr Examples.photo)
  = (ReplicateSeg.Post :: poll_events 2, Throw ReplicateSeg.RequestFailed).
Proof.
  apply (proj2 (@rejected_request_ends_the_call float _
                  Examples.env MoreExamples.second_poll_rejected (JStr Examples.photo)
                  "yolov8-seg:1"%string ltac:(repeat split; discriminate))
           Examples.starting 1).
  - reflexivity.
  - reflexivity.
  - reflexivity.
  - intros [|n] Hn; [exists Examples.processing; split; reflexivity|].
    unfold lt in Hn. apply le_S_n in Hn. inversion Hn.
  - unfold ReplicateSeg.poll_cap. repeat constructor.
  - reflexivity.
Defined.

(** ** [findMaskUrl]: nothing is missed, and the query is ignored *)

Section LocatorExtras.
Context {num : Type} `{JsNumber num}.
Import ReplicateSeg.

Lemma findMaskUrl_complete (out : json num) :
  findMaskUrl out = None ->
  forall s, In s (strings_of out) -> is_mask_string s = false.
Proof.
  induction out as [| b | x | s0 | items IH | props IH] using json_ind;
    intros Hnone s Hs; try contradiction.
  - destruct Hs as [<-|[]]. rewrite findMaskUrl_str in Hnone.
    destruct (is_mask_string s0); [discriminate | reflexivity].
  - rewrite findMaskUrl_arr in Hnone.
    destruct (first_hit_none findMaskUrl items) as [Hall _].
    simpl in Hs. apply in_flat_map in Hs. destruct Hs as (item & Hitem & Hs).
    rewrite Forall_forall in IH. exact (IH item Hitem (Hall Hnone item Hitem) s Hs).
  - rewrite findMaskUrl_obj in Hnone.
    destruct (first_hit findMaskUrl (priority_values props)); [discriminate|].
    rewrite first_hit_map in Hnone.
    destruct (first_hit_none (fun kv => findMaskUrl (snd kv)) props) as [Hall _].
    simpl in Hs. apply in_flat_map in Hs. destruct Hs as (kv & Hkv & Hs).
    rewrite Forall_forall in IH. exact (IH kv Hkv (Hall Hnone kv Hkv) s Hs).
Qed.

(** X5.  The locator returns [null] exactly when no string of the structure
    is a mask reference: one at any depth, under any key and behind any
    number of other values, is never missed. *)
Theorem null_exactly_without_mask_reference :
  forall out : json num,
    findMaskUrl out = None <->
    (forall s, In s (strings_of out) -> ~ mask_reference s).
Proof.
  intros out. split.
  - intros Hnone s Hs Hrule. apply is_mask_string_rule in Hrule.
    rewrite (findMaskUrl_complete out Hnone s Hs) in Hrule. discriminate.
  - intros Hno. apply findMaskUrl_none. intros s Hs.
    apply not_mask_string_rule, Hno, Hs.
Qed.

End LocatorExtras.

Section QueryIgnored.
Import ReplicateSeg.

Lemma startsWith_before (c : ascii) (p s t : string) :
  ~ occurs c p -> startsWith (s ++ String c t) p = startsWith s p.
Proof.
  unfold startsWith. revert s.
  induction p as [|a p IH]; intros s Hp; [destruct s; reflexivity|].
  assert (Hp' : ~ occurs c p) by (intros Hin; apply Hp; right; exact Hin).
  destruct s as [|b s]; simpl.
  - destruct (ascii_dec a c) as [->|_]; [|reflexivity].
    exfalso. apply Hp. left. reflexivity.
  - destruct (ascii_dec a b); [apply IH, Hp' | reflexivity].
Qed.

(** X6.  A query does not change the verdict on a string: for a text with
    no question mark, the text followed by [?] and anything has the same
    extension and passes the locator's test exactly when the text does. *)
Theorem query_is_ignored :
  forall path query,
    ~ occurs "?" path ->
    extension_of (path ++ String "?" query) = extension_of path
    /\ is_mask_string (path ++ String "?" query) = is_mask_string path.
Proof.
  intros path query Hq.
  assert (Hext : extension_of (path ++ String "?" query) = extension_of path).
  { unfold extension_of. rewrite (split_at "?" path query Hq).
    rewrite (split_without "?" path Hq). reflexivity. }
  split; [exact Hext|]. unfold is_mask_string.
  rewrite Hext, !startsWith_before; [reflexivity | |];
    simpl; intros Hin; repeat destruct Hin as [Hin|Hin]; discriminate || contradiction.
Qed.

End QueryIgnored.

Lemma query_is_ignored_witness :
  ReplicateSeg.is_mask_string "https://replicate.delivery/m1.png?sig=a.b"
  = ReplicateSeg.is_mask_string "https://replicate.delivery/m1.png".
Proof.
  apply (query_is_ignored "https://replicate.delivery/m1.png" "sig=a.b").
  simpl. intros Hin. repeat destruct Hin as [Hin|Hin]; discriminate || contradiction.
Defined.

(** ** The pixel meter on any array, and the overlay *)

From Stdlib Require Import Permutation.

Section PixelArrays.
Local Open Scope Z_scope.

(** Induction on an array four bytes at a time, as the loops read it. *)
Lemma by_pixels (P : list Z -> Prop) :
  P [] ->
  (forall r, P [r]) ->
  (forall r g, P [r; g]) ->
  (forall r g b, P [r; g; b]) ->
  (forall r g b alpha rest, P rest -> P (r :: g :: b :: alpha :: rest)) ->
  forall d, P d.
Proof.
  intros H0 H1 H2 H3 H4 d.
  assert (Hn : forall n d, (List.length d <= n)%nat -> P d).
  { induction n as [|n IH]; intros [|r [|g [|b [|alpha rest]]]] Hlen; auto;
      simpl in Hlen; try lia.
    apply H4, IH. simpl in Hlen. lia. }
  apply (Hn (List.length d)). lia.
Qed.

Lemma count_pixels_bounds d :
  forall total maskPixels,
    exists m,
      App.count_pixels d total maskPixels =
      (total + (Z.of_nat (List.length d) + 3) / 4, maskPixels + m)
      /\ 0 <= m <= (Z.of_nat (List.length d) + 3) / 4.
Proof.
  induction d as [| r | r g | r g b | r g b alpha rest IH] using by_pixels;
    intros total maskPixels.
  - exists 0. cbn [App.count_pixels].
    change ((Z.of_nat (List.length (@nil Z)) + 3) / 4) with 0.
    split; [f_equal; lia | lia].
  - exists 0. cbn [App.count_pixels].
    change ((Z.of_nat (List.length [r]) + 3) / 4) with 1.
    split; [f_equal; lia | lia].
  - exists 0. cbn [App.count_pixels].
    change ((Z.of_nat (List.length [r; g]) + 3) / 4) with 1.
    split; [f_equal; lia | lia].
  - exists (if r + g + b >? 10 then 1 else 0). cbn [App.count_pixels].
    change ((Z.of_nat (List.length [r; g; b]) + 3) / 4) with 1.
    destruct (r + g + b >? 10); (split; [f_equal; lia | lia]).
  - cbn [App.count_pixels].
    set (hit := if alpha >? 10 then 1 else if r + g + b >? 10 then 1 else 0).
    assert (Hhit : 0 <= hit <= 1)
      by (unfold hit; destruct (alpha >? 10), (r + g + b >? 10); lia).
    assert (Hacc : (if alpha >? 10 then maskPixels + 1
                    else if r + g + b >? 10 then maskPixels + 1 else maskPixels)
                   = maskPixels + hit)
      by (unfold hit; destruct (alpha >? 10), (r + g + b >? 10); lia).
    rewrite Hacc. destruct (IH (total + 1) (maskPixels + hit)) as (m & E & Hm).
    assert (Hlen : (Z.of_nat (List.length (r :: g :: b :: alpha :: rest)) + 3) / 4
                   = (Z.of_nat (List.length rest) + 3) / 4 + 1).
    { cbn [List.length]. rewrite !Nat2Z.inj_succ.
      replace (Z.succ (Z.succ (Z.succ (Z.succ (Z.of_nat (List.length rest))))) + 3)
        with (Z.of_nat (List.length rest) + 3 + 1 * 4) by lia.
      apply Z.div_add. lia. }
    exists (hit + m). rewrite E, Hlen. split; [f_equal; lia | lia].
Qed.

End PixelArrays.

(** X7.  On any array of bytes, whole pixels or not, the meter runs one
    round for every four bytes begun and counts at most one pixel a round;
    so the fraction is [NaN] exactly on the empty array and otherwise lies
    between 0 and 1, and the promise is rejected only when the mask fails to
    load. *)
Theorem fraction_within_bounds :
  forall d,
    (fst (App.count_pixels d 0 0) = (Z.of_nat (List.length d) + 3) / 4
     /\ 0 <= snd (App.count_pixels d 0 0) <= fst (App.count_pixels d 0 0))%Z
    /\ (App.computeMaskPixelFraction (Some d) = App.Resolved None <-> d = [])
    /\ (forall q, App.computeMaskPixelFraction (Some d) = App.Resolved (Some q) ->
                  Qle 0 q /\ Qle q 1)
    /\ (forall image, App.computeMaskPixelFraction image = App.Rejected <-> image = None).
Proof.
  intros d. destruct (count_pixels_bounds d 0 0) as (m & E & Hm).
  unfold App.computeMaskPixelFraction. rewrite E. cbn [fst snd].
  rewrite !Z.add_0_l.
  assert (Hrounds : ((Z.of_nat (List.length d) + 3) / 4 = 0)%Z <-> d = []).
  { split; [|intros ->; reflexivity].
    destruct d as [|r d]; [reflexivity|]. intros Hz. exfalso.
    cbn [List.length] in Hz. rewrite Nat2Z.inj_succ in Hz.
    assert (1 <= (Z.succ (Z.of_nat (List.length d)) + 3) / 4)%Z
      by (apply Z.div_le_lower_bound; lia).
    lia. }
  split; [split; [reflexivity | exact Hm]|].
  unfold App.divide. split; [|split].
  - destruct (_ =? 0)%Z eqn:Ez.
    + apply Z.eqb_eq in Ez. split; [intros _; apply Hrounds, Ez | reflexivity].
    + apply Z.eqb_neq in Ez. split; [discriminate|].
      intros Hd. apply Hrounds in Hd. contradiction.
  - intros q. destruct (_ =? 0)%Z eqn:Ez; [discriminate|].
    apply Z.eqb_neq in Ez. intros [= <-]. unfold Qle. cbn [Qnum Qden].
    rewrite Z2Pos.id by lia. lia.
  - intros [d'|]; [|split; reflexivity].
    destruct (App.count_pixels d' 0 0). split; discriminate.
Qed.

Section FoodPixels.

Lemma filter_none {A : Type} (f : A -> bool) l :
  List.length (filter f l) = 0 <-> Forall (fun a => f a = false) l.
Proof.
  induction l as [|a l IH]; simpl; [split; [constructor | reflexivity]|].
  destruct (f a) eqn:Fa; simpl.
  - split; [discriminate | intros Hall; inversion Hall; congruence].
  - rewrite IH. split; [constructor; assumption | intros Hall; inversion Hall; assumption].
Qed.

Lemma filter_all {A : Type} (f : A -> bool) l :
  List.length (filter f l) = List.length l <-> Forall (fun a => f a = true) l.
Proof.
  induction l as [|a l IH]; simpl; [split; [constructor | reflexivity]|].
  pose proof (filter_length_le f l) as Hle.
  destruct (f a) eqn:Fa; simpl.
  - split.
    + intros [= E]. constructor; [exact Fa | apply IH, E].
    + intros Hall. inversion Hall; subst. f_equal. apply IH. assumption.
  - split; [lia | intros Hall; inversion Hall; congruence].
Qed.

Lemma filter_permuted {A : Type} (f : A -> bool) l l' :
  Permutation l l' -> List.length (filter f l) = List.length (filter f l').
Proof.
  induction 1 as [| a l l' _ IH | a b l | l l' l'' _ IH1 _ IH2]; simpl.
  - reflexivity.
  - destruct (f a); simpl; rewrite IH; reflexivity.
  - destruct (f a), (f b); reflexivity.
  - rewrite IH1. exact IH2.
Qed.

Lemma fraction_of_pixels pixels :
  App.computeMaskPixelFraction (Some (image_data pixels)) =
  App.Resolved (App.divide (food_count pixels) (Z.of_nat (List.length pixels))).
Proof.
  unfold App.computeMaskPixelFraction. rewrite count_pixels_image_data. reflexivity.
Qed.

End FoodPixels.

(** X8.  On the image data of a list of pixels, the fraction is 0 exactly
    when no pixel is read as food and 1 exactly when every pixel is. *)
Theorem fraction_zero_or_one :
  forall pixels q,
    App.computeMaskPixelFraction (Some (image_data pixels)) = App.Resolved (Some q) ->
    (Qeq q 0 <-> Forall (fun px => is_food px = false) pixels)
    /\ (Qeq q 1 <-> Forall (fun px => is_food px = true) pixels).
Proof.
  intros pixels q. rewrite fraction_of_pixels. unfold App.divide, food_count.
  destruct (_ =? 0)%Z eqn:Ez; [discriminate|]. apply Z.eqb_neq in Ez.
  intros [= <-]. unfold Qeq. cbn [Qnum Qden]. rewrite Z2Pos.id by lia.
  rewrite <- filter_none, <- filter_all. split; split; lia.
Qed.

(** X9.  The fraction does not depend on where in the image the pixels
    are: two images whose pixels are the same up to their order give the
    same fraction. *)
Theorem fraction_ignores_positions :
  forall pixels pixels',
    Permutation pixels pixels' ->
    App.computeMaskPixelFraction (Some (image_data pixels)) =
    App.computeMaskPixelFraction (Some (image_data pixels')).
Proof.
  intros pixels pixels' Hp. rewrite !fraction_of_pixels. unfold food_count.
  rewrite (filter_permuted is_food Hp), (Permutation_length Hp). reflexivity.
Qed.

Lemma fraction_zero_or_one_witness :
  Qeq (Qmake 1 2) 0 <-> Forall (fun px => is_food px = false) [(0, 0, 0, 0); (9, 9, 9, 200)]%Z.
Proof.
  apply (@fraction_zero_or_one [(0, 0, 0, 0); (9, 9, 9, 200)]%Z (Qmake 1 2)).
  reflexivity.
Defined.

Lemma fraction_ignores_positions_witness :
  App.computeMaskPixelFraction (Some (image_data [(0, 0, 0, 0); (9, 9, 9, 200)]%Z)) =
  App.computeMaskPixelFraction (Some (image_data [(9, 9, 9, 200); (0, 0, 0, 0)]%Z)).
Proof.
  apply fraction_ignores_positions. apply perm_swap.
Defined.

(** ** The overlay *)

Section OverlayFacts.
Local Open Scope Z_scope.

Lemma round_to_byte_range x : 0 <= Overlay.round_to_byte x <= 255.
Proof.
  unfold Overlay.round_to_byte.
  destruct (Prim2SF x) as [| [|] | | s m e]; try lia.
Qed.

(** On a byte, a fifth of it, rounded. *)
Lemma darken_byte v : 0 <= v <= 255 -> Overlay.darken v = (2 * v + 5) / 10.
Proof.
  intros Hv.
  assert (Hall : forallb (fun n => Overlay.darken (Z.of_nat n)
                                   =? (2 * Z.of_nat n + 5) / 10)
                         (seq 0 256) = true) by (vm_compute; reflexivity).
  rewrite forallb_forall in Hall.
  specialize (Hall (Z.to_nat v)). rewrite Z2Nat.id in Hall by lia.
  apply Z.eqb_eq, Hall, in_seq. lia.
Qed.

Lemma overlay_count d :
  forall total maskPixels,
    App.count_pixels (Overlay.overlayMaskOnCanvas d) total maskPixels =
    App.count_pixels d total maskPixels.
Proof.
  induction d as [| r | r g | r g b | r g b alpha rest IH] using by_pixels;
    intros total maskPixels; try reflexivity.
  cbn [Overlay.overlayMaskOnCanvas]. destruct (alpha >? 10) eqn:Ea.
  - cbn [App.count_pixels]. rewrite Ea, IH. reflexivity.
  - cbn [App.count_pixels]. rewrite Ea, IH. reflexivity.
Qed.

End OverlayFacts.

(** X10.  On the image data of pixels whose channels are bytes, the overlay
    works pixel by pixel: a pixel whose alpha exceeds 10 becomes red 255,
    green and blue a fifth of what they were (rounded to the nearest
    integer), alpha 160; any other pixel is left as it is. *)
Theorem overlay_tints_visible_pixels :
  forall pixels,
    Forall (fun px => let '(r, g, b, alpha) := px in is_byte g /\ is_byte b) pixels ->
    Overlay.overlayMaskOnCanvas (image_data pixels) = image_data (map tinted pixels).
Proof.
  intros pixels Hbytes.
  induction Hbytes as [|[[[r g] b] alpha] pixels [Hg Hb] _ IH]; [reflexivity|].
  cbn [image_data Overlay.overlayMaskOnCanvas map tinted].
  rewrite IH. destruct (alpha >? 10)%Z; [|reflexivity].
  cbn [image_data]. rewrite (darken_byte Hg), (darken_byte Hb). reflexivity.
Qed.

(** X11.  The overlay keeps what the meter measures: on any array it
    returns an array of the same length on which [computeMaskPixelFraction]
    resolves to the same fraction, and it writes bytes only. *)
Theorem overlay_keeps_the_fraction :
  forall d,
    List.length (Overlay.overlayMaskOnCanvas d) = List.length d
    /\ App.computeMaskPixelFraction (Some (Overlay.overlayMaskOnCanvas d)) =
       App.computeMaskPixelFraction (Some d)
    /\ (Forall is_byte d -> Forall is_byte (Overlay.overlayMaskOnCanvas d)).
Proof.
  intros d. split; [|split].
  - induction d as [| r | r g | r g b | r g b alpha rest IH] using by_pixels;
      try reflexivity.
    cbn [Overlay.overlayMaskOnCanvas]. destruct (alpha >? 10)%Z;
      cbn [List.length]; rewrite IH; reflexivity.
  - unfold App.computeMaskPixelFraction. rewrite overlay_count. reflexivity.
  - induction d as [| r | r g | r g b | r g b alpha rest IH] using by_pixels;
      intros Hd; try exact Hd.
    cbn [Overlay.overlayMaskOnCanvas].
    inversion Hd as [|? ? Hr Hd1]; subst. inversion Hd1 as [|? ? Hg Hd2]; subst.
    inversion Hd2 as [|? ? Hb Hd3]; subst. inversion Hd3 as [|? ? Ha Hrest]; subst.
    destruct (alpha >? 10)%Z; repeat (constructor; try assumption);
      try (apply IH, Hrest); try apply round_to_byte_range;
      unfold is_byte; lia.
Qed.

Lemma overlay_tints_visible_pixels_witness :
  Overlay.overlayMaskOnCanvas [200; 100; 37; 255; 12; 34; 56; 0]%Z
  = [255; 20; 7; 160; 12; 34; 56; 0]%Z.
Proof.
  apply (@overlay_tints_visible_pixels [(200, 100, 37, 255); (12, 34, 56, 0)]%Z).
  repeat constructor; unfold is_byte; lia.
Defined.

(** ** The two routes *)

Section RouteFacts.
Context {num : Type} `{JsNumber num}.
Import Server.

(** Every request falls under one of four cases, told apart by the request
    and the model's reply alone. *)
Lemma estimate_portion_cases (openai : completion num) req :
  (whole_request req = false
   /\ estimate_portion openai req =
      {| code := 400; body := Failed (Message missing_fields) |})
  \/ (whole_request req = true /\ no_fraction req
      /\ estimate_portion openai req =
         {| code := 400; body := Failed (Message missing_pixelFraction) |})
  \/ (exists name x,
        whole_request req = true /\ foodName req = Some name
        /\ pixelFraction req = Some (JNum x) /\ fraction_let_through x = true
        /\ openai name = None
        /\ estimate_portion openai req = {| code := 500; body := Failed UpstreamError |})
  \/ (exists name x out,
        whole_request req = true /\ foodName req = Some name
        /\ pixelFraction req = Some (JNum x) /\ fraction_let_through x = true
        /\ openai name = Some out
        /\ estimate_portion openai req = expected_report name x out).
Proof.
  unfold estimate_portion, getDensityEstimateFromOpenAI, whole_request, no_fraction,
    fraction_let_through, checked_fraction.
  destruct (imageBase64 req) as [image|]; cbn [truthy_opt andb];
    [|left; split; reflexivity].
  destruct (maskUrl req) as [mask|]; cbn [truthy_opt andb];
    [|left; split; [rewrite ?andb_false_r; reflexivity | reflexivity]].
  destruct (foodName req) as [name|]; cbn [truthy_opt andb];
    [|left; split; [rewrite ?andb_false_r; reflexivity | reflexivity]].
  destruct (truthy image), (truthy mask), (truthy name); cbn [negb orb andb];
    try (left; split; reflexivity).
  destruct (pixelFraction req) as [[| |x| | |]|];
    try (right; left; split; [reflexivity|]; split; [intros ?; discriminate | reflexivity]).
  destruct (num_gtb x (num_of_decimal 0 0)) eqn:Egt; cbn [andb];
    [|right; left; split; [reflexivity|]; split; [|reflexivity];
      intros ? [= <-]; rewrite ?Egt, ?Ele, ?andb_false_r; reflexivity].
  destruct (num_leb x (num_of_decimal 1 0)) eqn:Ele; cbn [andb];
    [|right; left; split; [reflexivity|]; split; [|reflexivity];
      intros ? [= <-]; rewrite ?Egt, ?Ele, ?andb_false_r; reflexivity].
  destruct (num_truthy x) eqn:Et; cbn [negb];
    [|right; left; split; [reflexivity|]; split; [|reflexivity];
      intros ? [= <-]; rewrite Et; reflexivity].
  destruct (openai name) as [out|] eqn:Eo.
  - right; right; right. exists name, x, out.
    rewrite ?Et, ?Egt, ?Ele. repeat split. exact Eo.
  - right; right; left. exists name, x.
    rewrite ?Et, ?Egt, ?Ele. repeat split. exact Eo.
Qed.

(** X12.  [/api/estimate-portion] checks the request before it asks the
    model.  A request in which [imageBase64], [maskUrl] or [foodName] is
    missing or falsy is answered 400 with the missing-fields message, even
    when the fraction is wrong too; one with the three fields whose
    [pixelFraction] is missing, no number, falsy, at most 0 or above 1 is
    answered 400 with the fraction message; one that passes both checks is
    answered 500 when the model call throws and 200, with the whole estimate
    computed from the fraction and the parsed reply, when it returns.  So the
    code is 400, 500 or 200 exactly in these cases, and a 400 is the same
    whatever the model would say. *)
Theorem request_checked_before_the_model :
  forall (openai : completion num) req,
    let r := estimate_portion openai req in
    (whole_request req = false ->
     r = {| code := 400; body := Failed (Message missing_fields) |})
    /\ (whole_request req = true -> no_fraction req ->
        r = {| code := 400; body := Failed (Message missing_pixelFraction) |})
    /\ (forall name x,
          whole_request req = true -> foodName req = Some name ->
          pixelFraction req = Some (JNum x) -> fraction_let_through x = true ->
          (openai name = None -> r = {| code := 500; body := Failed UpstreamError |})
          /\ (forall out, openai name = Some out -> r = expected_report name x out))
    /\ (code r = 400 <-> whole_request req = false \/ no_fraction req)
    /\ (code r = 500 <->
        exists name x,
          whole_request req = true /\ foodName req = Some name
          /\ pixelFraction req = Some (JNum x) /\ fraction_let_through x = true
          /\ openai name = None)
    /\ (code r = 200 <->
        exists name x out,
          whole_request req = true /\ foodName req = Some name
          /\ pixelFraction req = Some (JNum x) /\ fraction_let_through x = true
          /\ openai name = Some out)
    /\ (code r = 400 -> forall openai', estimate_portion openai' req = r).
Proof.
  intros openai req r. subst r.
  assert (Hcases := estimate_portion_cases).
  destruct (Hcases openai req)
    as [[Hw Hr]|[(Hw & Hf & Hr)|[(name & x & Hw & Hn & Hx & Hv & Ho & Hr)
                                |(name & x & out & Hw & Hn & Hx & Hv & Ho & Hr)]]];
    rewrite Hr; cbn [code expected_report].
  - split; [reflexivity|]. split; [congruence|].
    split; [intros; congruence|].
    split; [split; [left; exact Hw | reflexivity]|].
    split; [split; [discriminate | intros (? & ? & ? & _); congruence]|].
    split; [split; [discriminate | intros (? & ? & ? & ? & _); congruence]|].
    intros _ openai'.
    destruct (Hcases openai' req)
      as [[_ Hr']|[(Hw' & _)|[(? & ? & Hw' & _)|(? & ? & ? & Hw' & _)]]];
      [exact Hr' | congruence | congruence | congruence].
  - split; [congruence|]. split; [reflexivity|].
    split; [intros name x _ _ Hx Hv; rewrite (Hf x Hx) in Hv; discriminate|].
    split; [split; [right; exact Hf | reflexivity]|].
    split; [split; [discriminate|];
            intros (? & x & _ & _ & Hx & Hv & _); rewrite (Hf x Hx) in Hv; discriminate|].
    split; [split; [discriminate|];
            intros (? & x & ? & _ & _ & Hx & Hv & _);
            rewrite (Hf x Hx) in Hv; discriminate|].
    intros _ openai'.
    destruct (Hcases openai' req)
      as [[Hw' _]|[(_ & _ & Hr')|[(? & x & _ & _ & Hx & Hv & _)
                                 |(? & x & ? & _ & _ & Hx & Hv & _)]]];
      [congruence | exact Hr'
      | rewrite (Hf x Hx) in Hv; discriminate
      | rewrite (Hf x Hx) in Hv; discriminate].
  - split; [congruence|].
    split; [intros _ Hf; rewrite (Hf x Hx) in Hv; discriminate|].
    split; [intros name' x' _ Hn' Hx' _; split;
            [reflexivity | intros out Ho'; congruence]|].
    split; [split; [discriminate|];
            intros [Hw'|Hf]; [congruence | rewrite (Hf x Hx) in Hv; discriminate]|].
    split; [split; [intros _; exists name, x; repeat split; assumption | reflexivity]|].
    split; [split; [discriminate|];
            intros (name' & ? & out & _ & Hn' & _ & _ & Ho'); congruence|].
    discriminate.
  - split; [congruence|].
    split; [intros _ Hf; rewrite (Hf x Hx) in Hv; discriminate|].
    split; [intros name' x' _ Hn' Hx' _; split;
            [intros Ho'; congruence | intros out' Ho'; congruence]|].
    split; [split; [discriminate|];
            intros [Hw'|Hf]; [congruence | rewrite (Hf x Hx) in Hv; discriminate]|].
    split; [split; [discriminate|];
            intros (name' & ? & _ & Hn' & _ & _ & Ho'); congruence|].
    split; [split; [intros _; exists name, x, out; repeat split; assumption
                   | reflexivity]|].
    discriminate.
Qed.

(** X13.  [/api/segment] answers 400 exactly when the request has neither a
    file nor a truthy [imageBase64]; an uploaded file is used whatever the
    body holds, as a data URL of its media type ([image/jpeg] when it names
    none); otherwise the answer is 200 with the result of [runModelVersion]
    or 500 with its error. *)
Theorem segment_needs_an_image :
  forall env (svc : ReplicateSeg.service num) file image,
    (code (Routes.api_segment env svc file image) = 400
     <-> file = None /\ truthy_opt image = false)
    /\ (forall f,
          Routes.api_segment env svc (Some f) image =
          match snd (ReplicateSeg.runModelVersion env svc
                       (JStr (Routes.bufferToDataUrl f))) with
          | Return seg => {| code := 200; body := Segmented seg |}
          | Throw e => {| code := 500; body := Failed (SegmentationError e) |}
          end)
    /\ (forall f,
          startsWith (Routes.bufferToDataUrl f) "data:" = true
          /\ (Routes.mimetype f = None \/ Routes.mimetype f = Some EmptyString ->
              Routes.bufferToDataUrl f =
              ("data:image/jpeg;base64," ++ Routes.base64 f)%string))
    /\ (file = None -> forall data, image = Some data -> truthy data = true ->
        Routes.api_segment env svc file image =
        match snd (ReplicateSeg.runModelVersion env svc data) with
        | Return seg => {| code := 200; body := Segmented seg |}
        | Throw e => {| code := 500; body := Failed (SegmentationError e) |}
        end).
Proof.
  intros env svc file image. unfold Routes.api_segment, segment.
  split; [|split; [|split]].
  - destruct file as [f|]; cbn [option_map].
    + destruct (snd (ReplicateSeg.runModelVersion env svc _));
        split; [discriminate | intros [? _]; discriminate
               | discriminate | intros [? _]; discriminate].
    + destruct image as [data|]; cbn [truthy_opt]; [|split; auto].
      destruct (truthy data); [|split; auto].
      destruct (snd (ReplicateSeg.runModelVersion env svc data));
        split; [discriminate | intros [_ ?]; discriminate
               | discriminate | intros [_ ?]; discriminate].
  - intros f. reflexivity.
  - intros f. unfold Routes.bufferToDataUrl. split.
    + unfold startsWith. cbn [append String.prefix].
      repeat (destruct (ascii_dec _ _) as [_|Hne]; [|exfalso; apply Hne; reflexivity]).
      destruct (_ ++ _)%string; reflexivity.
    + intros [-> | ->]; reflexivity.
  - intros -> data -> Hdata. cbn [option_map]. rewrite Hdata. reflexivity.
Qed.

End RouteFacts.

Lemma request_checked_before_the_model_witness :
  Server.estimate_portion Examples.answers_0_9 Examples.rice_request
  = expected_report (JStr "rice") 0.3%float "0.9"
  /\ Server.estimate_portion (fun _ => None) Examples.rice_request
     = {| Server.code := 500; Server.body := Server.Failed Server.UpstreamError |}
  /\ Server.estimate_portion Examples.answers_0_9
       (Examples.with_fraction (Some (JNum 1.5%float)))
     = {| Server.code := 400;
          Server.body := Server.Failed (Server.Message Server.missing_pixelFraction) |}
  /\ Server.estimate_portion Examples.answers_0_9
       {| Server.imageBase64 := Some (JStr Examples.photo);
          Server.maskUrl := None;
          Server.foodName := Some (JStr "rice");
          Server.pixelFraction := Some (JNum 1.5%float) |}
     = {| Server.code := 400;
          Server.body := Server.Failed (Server.Message Server.missing_fields) |}.
Proof.
  split; [|split; [|split]].
  - refine (proj2 (proj1 (proj2 (proj2
              (request_checked_before_the_model Examples.answers_0_9
                 Examples.rice_request)))
              (JStr "rice") 0.3%float _ _ _ _) "0.9"%string _);
      vm_compute; reflexivity.
  - refine (proj1 (proj1 (proj2 (proj2
              (request_checked_before_the_model (fun _ => None)
                 Examples.rice_request)))
              (JStr "rice") 0.3%float _ _ _ _) _);
      vm_compute; reflexivity.
  - apply (proj1 (proj2
             (request_checked_before_the_model Examples.answers_0_9
                (Examples.with_fraction (Some (JNum 1.5%float)))))).
    + reflexivity.
    + intros x E. injection E as <-. vm_compute. reflexivity.
  - apply (proj1
             (request_checked_before_the_model Examples.answers_0_9
                {| Server.imageBase64 := Some (JStr Examples.photo);
                   Server.maskUrl := None;
                   Server.foodName := Some (JStr "rice");
                   Server.pixelFraction := Some (JNum 1.5%float) |})).
    reflexivity.
Defined.

(** ** The density reply: what does not matter *)

Section DensityExtras.
Context {num : Type} `{JsNumber num}.
Import Server.

Lemma match_number_decimal int frac after :
  all_digits int -> all_digits frac -> not_digit_head after ->
  match_number (int ++ String "." frac ++ after) = Some (int ++ String "." frac)%string.
Proof.
  intros Hint [Hne Hfrac] Hafter.
  destruct (all_digits_head Hint) as (c & rest & -> & Hc).
  destruct Hint as [_ Hint].
  change (String c rest ++ String "." frac ++ after)%string
    with (String c (rest ++ String "." (frac ++ after)))%string.
  cbn [match_number]. rewrite Hc.
  change (String c (rest ++ String "." (frac ++ after)))
    with (String c rest ++ String "." (frac ++ after))%string.
  rewrite take_digits_app by (exact Hint || reflexivity).
  unfold take_fraction. rewrite Ascii.eqb_refl.
  rewrite take_digits_app by assumption. cbn [fst].
  destruct frac as [|f frac]; [congruence | reflexivity].
Qed.

Lemma match_number_integer int after :
  all_digits int -> not_digit_head after ->
  (forall c rest, after = String "." (String c rest) -> is_digit c = false) ->
  match_number (int ++ after) = Some int.
Proof.
  intros Hint Hafter Hpoint.
  destruct (all_digits_head Hint) as (c & rest & -> & Hc).
  destruct Hint as [_ Hint].
  change (String c rest ++ after)%string with (String c (rest ++ after)).
  cbn [match_number]. rewrite Hc.
  change (String c (rest ++ after)) with (String c rest ++ after)%string.
  rewrite take_digits_app by assumption.
  assert (Hnone : take_fraction after = EmptyString).
  { unfold take_fraction. destruct after as [|a after1]; [reflexivity|].
    destruct (Ascii.eqb a ".") eqn:Ea; [|reflexivity].
    apply Ascii.eqb_eq in Ea. subst a.
    destruct after1 as [|d after2]; [reflexivity|].
    cbn [take_digits]. rewrite (Hpoint d after2 eq_refl). reflexivity. }
  rewrite Hnone, append_empty_r. reflexivity.
Qed.

(** X14.  Only the first number of the reply counts.  What stands before
    the first digit is skipped, a minus sign included; after a decimal
    [int.frac] anything that is not a digit ends the number, and after an
    integer anything that is neither a digit nor a point followed by a
    digit: so an exponent, a second point or a thousands separator cuts the
    number short. *)
Theorem density_reads_first_number_only :
  (forall before text,
      no_digit before -> parse_density (before ++ text) = parse_density text)
  /\ (forall int frac after,
        all_digits int -> all_digits frac -> not_digit_head after ->
        parse_density (int ++ String "." frac ++ after) =
        num_of_decimal (digits_value 0 (int ++ frac)) (String.length frac))
  /\ (forall int after,
        all_digits int -> not_digit_head after ->
        (forall c rest, after = String "." (String c rest) -> is_digit c = false) ->
        parse_density (int ++ after) = num_of_decimal (digits_value 0 int) 0).
Proof.
  split; [|split].
  - intros before text Hb. unfold parse_density.
    rewrite (match_number_skip _ Hb). reflexivity.
  - intros int frac after Hint Hfrac Hafter. unfold parse_density.
    rewrite match_number_decimal by assumption.
    apply parseFloat_decimal; assumption.
  - intros int after Hint Hafter Hpoint. unfold parse_density.
    rewrite match_number_integer by assumption.
    apply parseFloat_integer, Hint.
Qed.

End DensityExtras.

Lemma density_reads_first_number_only_witness :
  Server.parse_density "about -1.5e3 g/ml" = 1.5%float
  /\ Server.parse_density "1,200" = 1%float.
Proof.
  destruct (density_reads_first_number_only (num := float)) as (Hskip & Hdec & Hint).
  assert (D1 : all_digits "1") by (split; [discriminate | repeat constructor]).
  assert (D5 : all_digits "5") by (split; [discriminate | repeat constructor]).
  split.
  - apply (eq_trans (Hskip "about -"%string "1.5e3 g/ml"%string
                       ltac:(repeat constructor))).
    apply (eq_trans (Hdec "1"%string "5"%string "e3 g/ml"%string D1 D5 eq_refl)).
    vm_compute. reflexivity.
  - apply (eq_trans (Hint "1"%string ",200"%string D1 eq_refl
                       ltac:(intros c rest E; discriminate))).
    vm_compute. reflexivity.
Defined.

(** ** The page *)

Section PageFacts.
Context {num : Type} `{JsNumber num}.
Import Page.

Lemma or_text_nonempty x dflt : dflt <> EmptyString -> or_text x dflt <> EmptyString.
Proof.
  intros Hd. unfold or_text. destruct x as [s|]; [|exact Hd].
  destruct (String.eqb s EmptyString) eqn:E; [exact Hd|].
  apply String.eqb_neq, E.
Qed.

Lemma truthy_text (s : string) :
  s <> EmptyString -> truthy (JStr s : json num) = true.
Proof. intros Hs. cbn [truthy]. apply String.eqb_neq in Hs. rewrite Hs. reflexivity. Qed.

(** The answer of the server to the request the page sends. *)
Lemma estimate_portion_of_page (openai : Server.completion num) image mask name sent :
  image <> EmptyString -> mask <> EmptyString -> name <> EmptyString ->
  Server.estimate_portion openai
    {| Server.imageBase64 := Some (JStr image); Server.maskUrl := Some (JStr mask);
       Server.foodName := Some (JStr name); Server.pixelFraction := Some sent |}
  = match Server.checked_fraction (Some sent) with
    | None => {| Server.code := 400;
                 Server.body := Server.Failed (Server.Message Server.missing_pixelFraction) |}
    | Some fraction =>
        if negb (num_truthy fraction)
        then {| Server.code := 400;
                Server.body := Server.Failed (Server.Message Server.missing_pixelFraction) |}
        else
          match openai (JStr name) with
          | None => {| Server.code := 500; Server.body := Server.Failed Server.UpstreamError |}
          | Some out =>
              {| Server.code := 200;
                 Server.body := Server.Estimated
                   {| Server.report_foodName := JStr name;
                      Server.report_pixelFraction := fraction;
                      Server.plateAssumptions :=
                        {| Server.plateDiameterCm := Server.defaultPlateDiameterCm;
                           Server.assumedHeightCm := Server.defaultHeightCm;
                           Server.plateAreaCm2_shown := num_toFixed 2 Server.plateAreaCm2 |};
                      Server.estimatedVolumeMl_shown :=
                        num_toFixed 2 (Server.estimatedVolumeMl fraction);
                      Server.density_g_per_ml := num_toFixed 2 (Server.parse_density out);
                      Server.portionEstimate_g :=
                        num_toFixed 1
                          (Server.rawPortionGrams fraction (Server.parse_density out)) |} |}
          end
    end.
Proof.
  intros Hi Hm Hn. unfold Server.estimate_portion, Server.getDensityEstimateFromOpenAI.
  cbn [Server.imageBase64 Server.maskUrl Server.foodName Server.pixelFraction].
  rewrite !truthy_text by assumption. cbn [negb orb].
  destruct (Server.checked_fraction (Some sent)) as [fraction|]; [|reflexivity].
  destruct (negb (num_truthy fraction)); [reflexivity|].
  destruct (openai (JStr name)); reflexivity.
Qed.

(** X15.  A click on the estimate button alerts, and sends nothing, exactly
    when the session lacks the image or the mask.  Otherwise the request
    carries the image, the mask and a food name, ["unknown"] when none was
    identified, so that the server never answers it with the missing-fields
    error, and an estimate shown names that food. *)
Theorem estimate_click_sends_whole_requests :
  forall (openai : Server.completion num) mask s,
    let shown :=
      estimateBtn_click (fun req => Some (Server.estimate_portion openai req)) mask s in
    (shown = Alert "Run Identify and Segment first."
     <-> ReplicateSeg.is_set (currentImageDataUrl s) = false
         \/ ReplicateSeg.is_set (currentMaskUrl s) = false)
    /\ shown <> ResultError (Server.Message Server.missing_fields)
    /\ (forall report,
          shown = Result (Server.Estimated report) ->
          Server.report_foodName report = JStr (or_text (currentFoodName s) "unknown")
          /\ or_text (currentFoodName s) "unknown" <> EmptyString).
Proof.
  intros openai mask s. unfold estimateBtn_click.
  assert (Hname : or_text (currentFoodName s) "unknown" <> EmptyString)
    by (apply or_text_nonempty; discriminate).
  destruct (currentImageDataUrl s) as [image|]; cbn [ReplicateSeg.is_set];
    [|cbn zeta; repeat split; auto; discriminate].
  destruct (currentMaskUrl s) as [maskUrl|]; cbn [ReplicateSeg.is_set];
    [|cbn zeta; repeat split; auto; discriminate].
  destruct (String.eqb image EmptyString) eqn:Ei; cbn [orb negb];
    [cbn zeta; repeat split; auto; discriminate|].
  destruct (String.eqb maskUrl EmptyString) eqn:Em; cbn [orb negb];
    [cbn zeta; repeat split; auto; discriminate|].
  apply String.eqb_neq in Ei, Em.
  assert (Hno : true = false \/ true = false -> False) by (intros [?|?]; discriminate).
  destruct (App.computeMaskPixelFraction mask) as [fraction|];
    [|cbn zeta; repeat split; try discriminate; intros Hx; destruct (Hno Hx)].
  rewrite (estimate_portion_of_page openai (fraction_json fraction) Ei Em Hname).
  destruct (Server.checked_fraction (Some (fraction_json fraction))) as [x|];
    [destruct (negb (num_truthy x)); [|destruct (openai _)]|];
    cbn zeta; cbn [Server.body];
    (split; [split; [discriminate | intros Hx; destruct (Hno Hx)]|]);
    (split; [discriminate|]); intros report; try discriminate.
  intros [= <-]. split; [reflexivity | exact Hname].
Qed.

(** X16.  A click on the segment button changes the session only when the
    route returned a mask, and the mask it stores is one the locator
    accepted: a session whose mask is a mask reference, or that has none,
    stays so whatever the service answers, and its food name is kept. *)
Theorem segment_click_keeps_mask_references :
  forall env (svc : ReplicateSeg.service num) read file s,
    let after :=
      segmentBtn_click (fun f => Some (Routes.api_segment env svc (Some f) None))
        read file s in
    (mask_kept s -> mask_kept (fst after))
    /\ currentFoodName (fst after) = currentFoodName s
    /\ (snd after = SegmentationDone ->
        exists mask url,
          currentMaskUrl (fst after) = Some mask
          /\ ReplicateSeg.is_mask_string mask = true
          /\ read = Some url
          /\ currentImageDataUrl (fst after) = Some url)
    /\ (snd after <> SegmentationDone -> snd after <> FailedStatus -> fst after = s).
Proof.
  intros env svc read file s. unfold segmentBtn_click.
  destruct file as [f|]; [|cbn zeta; repeat split; auto; discriminate].
  unfold Routes.api_segment, Server.segment. cbn [option_map].
  pose proof (runModelVersion_checked env svc (JStr (Routes.bufferToDataUrl f))) as Hc.
  destruct (snd (ReplicateSeg.runModelVersion env svc _)) as [seg|e];
    cbn [Server.body]; [|cbn zeta; repeat split; auto; discriminate].
  cbn [checked] in Hc. destruct Hc as (_ & _ & Hmask).
  destruct (ReplicateSeg.maskUrl seg) as [mask|];
    [|cbn zeta; repeat split; auto; discriminate].
  destruct (Hmask mask eq_refl) as (Hrule & _ & Hne).
  apply is_mask_string_rule in Hrule.
  destruct (String.eqb mask EmptyString); [cbn zeta; repeat split; auto; discriminate|].
  destruct read as [url|]; cbn zeta; cbn [fst snd].
  - split; [intros _; exact Hrule|]. split; [reflexivity|].
    split; [intros _; exists mask, url; repeat split; exact Hrule|].
    intros Hx. contradiction.
  - split; [intros _; exact Hrule|]. split; [reflexivity|].
    split; [discriminate|]. intros _ Hx. contradiction.
Qed.

End PageFacts.

(** ** From the mask to the answer, in exact arithmetic *)

Section MaskToAnswer.
Import Page.
Local Open Scope R_scope.

Lemma food_count_range pixels :
  (0 <= food_count pixels <= Z.of_nat (List.length pixels))%Z.
Proof.
  unfold food_count. pose proof (filter_length_le is_food pixels). lia.
Qed.

Lemma exact_fraction_json pixels :
  pixels <> [] ->
  fraction_json (App.divide (food_count pixels) (Z.of_nat (List.length pixels)))
  = JNum (IZR (food_count pixels) / IZR (Z.of_nat (List.length pixels))).
Proof.
  intros Hne. pose proof (length_pos Hne) as Hlen.
  pose proof (food_count_range pixels) as Hfc.
  unfold App.divide. destruct (_ =? 0)%Z eqn:Ez; [apply Z.eqb_eq in Ez; lia|].
  cbn [fraction_json Qnum Qden num_div num_of_decimal Exact.number].
  rewrite Z2N.id by lia. cbn [Z.of_N]. rewrite Z2Pos.id by lia.
  f_equal. simpl. field. apply not_0_IZR. lia.
Qed.

Lemma ratio_at_most_one (a b : R) : 0 < b -> a <= b -> a / b <= 1.
Proof.
  intros Hb Hab. apply Rmult_le_reg_r with b; [exact Hb|].
  replace (a / b * b) with a by (field; lra). lra.
Qed.

Lemma exact_checked_fraction (m t : Z) :
  (0 <= m <= t)%Z -> (0 < t)%Z ->
  Server.checked_fraction (Some (JNum (IZR m / IZR t)))
  = if (m =? 0)%Z then None else Some (IZR m / IZR t).
Proof.
  intros Hm Ht. assert (HT : 0 < IZR t) by (apply IZR_lt; exact Ht).
  unfold Server.checked_fraction.
  cbn [num_gtb num_leb num_of_decimal Exact.number].
  replace (IZR (Z.of_N 0) / 10 ^ 0) with 0 by (simpl; lra).
  replace (IZR (Z.of_N 1) / 10 ^ 0) with 1 by (simpl; lra).
  destruct (m =? 0)%Z eqn:Ez.
  - apply Z.eqb_eq in Ez. subst m.
    destruct (Rgt_dec (0 / IZR t) 0) as [Hgt|_]; [|reflexivity].
    exfalso. unfold Rdiv in Hgt. rewrite Rmult_0_l in Hgt. lra.
  - apply Z.eqb_neq in Ez.
    assert (Hpos : 0 < IZR m / IZR t).
    { apply Rdiv_lt_0_compat; [apply IZR_lt; lia | exact HT]. }
    assert (Hle : IZR m / IZR t <= 1).
    { apply ratio_at_most_one; [exact HT | apply IZR_le; lia]. }
    destruct (Rgt_dec (IZR m / IZR t) 0) as [_|Hn]; [|exfalso; apply Hn; lra].
    destruct (Rle_dec (IZR m / IZR t) 1) as [_|Hn]; [reflexivity|contradiction].
Qed.

(** X17.  In exact arithmetic, the mask decides the answer to a click on
    the estimate button, for a session that holds an image and a mask: when
    no pixel of the mask is read as food (or it has no pixel) the server
    answers with the pixel-fraction error, and when some pixel is food, and
    the model replies, it answers with an estimate for the fraction of food
    pixels, whose grams are the rounded product for that fraction. *)
Theorem mask_decides_the_answer :
  forall (openai : Server.completion R) pixels s image maskUrl,
    currentImageDataUrl s = Some image -> image <> EmptyString ->
    currentMaskUrl s = Some maskUrl -> maskUrl <> EmptyString ->
    let shown :=
      estimateBtn_click (fun req => Some (Server.estimate_portion openai req))
        (Some (image_data pixels)) s in
    let fraction := IZR (food_count pixels) / IZR (Z.of_nat (List.length pixels)) in
    (Forall (fun px => is_food px = false) pixels ->
     shown = ResultError (Server.Message Server.missing_pixelFraction))
    /\ (~ Forall (fun px => is_food px = false) pixels ->
        forall out,
          openai (JStr (or_text (currentFoodName s) "unknown")) = Some out ->
          exists report,
            shown = Result (Server.Estimated report)
            /\ Server.report_pixelFraction report = fraction
            /\ 0 < fraction <= 1
            /\ Server.portionEstimate_g report =
               Exact.toFixed 1
                 (Server.rawPortionGrams fraction (Server.parse_density out))).
Proof.
  intros openai pixels s image maskUrl Hi Hine Hm Hmne shown fraction.
  assert (Hname : or_text (currentFoodName s) "unknown" <> EmptyString)
    by (apply or_text_nonempty; discriminate).
  assert (Hshown : shown =
            match Server.body
                    (Server.estimate_portion openai
                       {| Server.imageBase64 := Some (JStr image);
                          Server.maskUrl := Some (JStr maskUrl);
                          Server.foodName :=
                            Some (JStr (or_text (currentFoodName s) "unknown"));
                          Server.pixelFraction :=
                            Some (fraction_json
                                    (App.divide (food_count pixels)
                                       (Z.of_nat (List.length pixels)))) |}) with
            | Server.Failed e => ResultError e
            | body => Result body
            end).
  { unfold shown, estimateBtn_click. rewrite Hi, Hm.
    apply String.eqb_neq in Hine, Hmne. rewrite Hine, Hmne. cbn [orb].
    rewrite fraction_of_pixels. reflexivity. }
  rewrite Hshown, (estimate_portion_of_page openai _ Hine Hmne Hname).
  pose proof (food_count_range pixels) as Hfc.
  destruct pixels as [|px pixels].
  - split; [intros _; reflexivity|]. intros Hsome. exfalso. apply Hsome. constructor.
  - assert (Hne : px :: pixels <> []) by discriminate.
    pose proof (length_pos Hne) as Hlen.
    rewrite (exact_fraction_json Hne), (exact_checked_fraction Hfc Hlen).
    assert (Hzero : (food_count (px :: pixels) =? 0)%Z = true
                    <-> Forall (fun p => is_food p = false) (px :: pixels)).
    { rewrite Z.eqb_eq, <- filter_none. unfold food_count. lia. }
    destruct (food_count (px :: pixels) =? 0)%Z eqn:Ez.
    + split; [intros _; reflexivity|]. intros Hsome. exfalso.
      apply Hsome, Hzero. reflexivity.
    + split; [intros Hall; apply Hzero in Hall; discriminate|].
      intros _ out Hout. apply Z.eqb_neq in Ez.
      assert (Hpos : 0 < fraction <= 1).
      { unfold fraction. assert (HT : 0 < IZR (Z.of_nat (List.length (px :: pixels))))
          by (apply IZR_lt; exact Hlen).
        split.
        - apply Rdiv_lt_0_compat; [apply IZR_lt; lia | exact HT].
        - apply ratio_at_most_one; [exact HT | apply IZR_le; lia]. }
      fold fraction. cbn [num_truthy Exact.number].
      destruct (Req_dec_T fraction 0) as [Hz|_]; [lra|]. cbn [negb].
      rewrite Hout. cbn [Server.body]. eexists. split; [reflexivity|].
      cbn [Server.report_pixelFraction Server.portionEstimate_g].
      split; [reflexivity|]. split; [exact Hpos | reflexivity].
Qed.

(** X18.  In exact arithmetic the helper of [utils/portion.js] scales the
    grams of the handler: with options giving a plate of diameter [d] and a
    height [h] (the defaults where an option is missing or 0), its grams are
    those of [/api/estimate-portion] times [(d/25)^2] and times [h/2.5]. *)
Theorem helper_scales_the_server :
  forall (opts : Portion.options R) f density,
    let d := Portion.or_default (Portion.plateDiameterCm opts) 25 in
    let h := Portion.or_default (Portion.heightCm opts) 2.5 in
    Portion.rawGramsForDensity (Portion.estimatePortionFromMaskFraction f opts) density
    = Server.rawPortionGrams f density * (d / 25) ^ 2 * (h / 2.5).
Proof.
  intros opts f density d h.
  destruct (exact_helper opts f) as (Ha & Hv & Hr).
  rewrite Hr, Hv, Ha, exact_grams, exact_volume, exact_plate_area.
  fold d h. simpl. lra.
Qed.

End MaskToAnswer.

Lemma mask_decides_the_answer_witness :
  Page.estimateBtn_click
    (fun req => Some (Server.estimate_portion (fun _ : json R => Some "0.9"%string) req))
    (Some (image_data [(0, 0, 0, 0); (0, 0, 0, 3)]%Z)) MoreExamples.segmented
  = Page.ResultError (Server.Message Server.missing_pixelFraction).
Proof.
  apply (@mask_decides_the_answer (fun _ => Some "0.9"%string)
           [(0, 0, 0, 0); (0, 0, 0, 3)]%Z MoreExamples.segmented
           Examples.photo "https://replicate.delivery/m1.png?sig=a.b"%string).
  - reflexivity.
  - discriminate.
  - reflexivity.
  - discriminate.
  - repeat constructor.
Defined.
